(** * The embedding service of [app/core/embeddings.py] and the code around it

    A shallow embedding of [EmbeddingService]: the whitespace guard of
    [embed_text], the batch call [embed_texts], the vector utilities
    [cosine_similarity] and [combine_embeddings] (with the numpy calls they
    make), the ranking of [semantic_search] and the status dictionary of
    [health_check]; of the callers of the service in [app/main.py] (the
    [lifespan] of the application and the endpoint [GET /health]) with the
    database manager of [app/core/database.py]; of the validators of
    [app/schemas]; and of the texts the models of [app/models] give to the
    service.

    Python [float] and numpy [float64] are IEEE 754 binary64 numbers: they
    are modelled by Rocq's primitive floats, which compute with the same
    rounding.  Python [int] is [Z], [str] is a list of Unicode code points,
    a [dict] with string keys is a [gmap], and a raised exception is the
    [Raise] branch of [result]. *)

From Stdlib Require Import ZArith NArith List Bool Ascii String Floats Uint63 Sorted Lia.
From stdpp Require Import base option list strings gmap pretty sorting.

(** ** Python values *)

(** A [str] is a sequence of code points; the string literals of the source
    are ASCII and are read through [lit]. *)
Definition str : Type := list N.

Definition lit (s : string) : str :=
  (λ c, N_of_ascii c) <$> list_ascii_of_string s.

Coercion lit : string >-> str.

(** The exceptions the modelled code meets: the two numpy raises, and
    whatever the embeddings client raises (an [Exception] subclass with its
    class name). [str_of_exception] is Python's [str(e)]. *)
Inductive exception : Type :=
  | ValueError (msg : str)
  | ZeroDivisionError (msg : str)
  | ClientError (cls : string) (msg : str).

Definition str_of_exception (e : exception) : str :=
  match e with
  | ValueError msg | ZeroDivisionError msg | ClientError _ msg => msg
  end.

Inductive result (A : Type) : Type :=
  | Ok (a : A)
  | Raise (e : exception).
Arguments Ok {A} a.
Arguments Raise {A} e.

Definition result_bind {A B} (r : result A) (f : A → result B) : result B :=
  match r with
  | Ok a => f a
  | Raise e => Raise e
  end.

#[export] Instance result_ret : MRet result := @Ok.
#[export] Instance result_mbind : MBind result := λ A B f r, result_bind r f.

(** [for x in xs: ys.append(f(x))], stopping at the first raise. *)
Fixpoint result_mapM {A B} (f : A → result B) (xs : list A) : result (list B) :=
  match xs with
  | [] => Ok []
  | x :: xs' =>
      y ← f x; ys ← result_mapM f xs'; Ok (y :: ys)
  end.

(** The values stored in the status dictionary. *)
Inductive pyval : Type :=
  | PyStr (s : str)
  | PyInt (n : Z).

(** *** Builtins *)

(** [str.isspace] on one code point: CPython's [_PyUnicode_IsWhitespace]
    (bidirectional type WS, B or S, or category Zs). *)
Definition isspace (c : N) : bool :=
  ((9 <=? c) && (c <=? 13) || (28 <=? c) && (c <=? 32)
   || (c =? 133) || (c =? 160) || (c =? 5760)
   || (8192 <=? c) && (c <=? 8202)
   || (c =? 8232) || (c =? 8233) || (c =? 8239) || (c =? 8287)
   || (c =? 12288))%N.

Fixpoint lstrip (s : str) : str :=
  match s with
  | [] => []
  | c :: s' => if isspace c then lstrip s' else s
  end.

Definition rstrip (s : str) : str := reverse (lstrip (reverse s)).

(** [s.strip()] with no argument. *)
Definition strip (s : str) : str := rstrip (lstrip s).

(** [l[:k]]: a negative bound counts from the end, and every bound is
    clipped to the list. *)
Definition slice_to {A} (l : list A) (k : Z) : list A :=
  if (k <? 0)%Z then take (Z.to_nat (Z.of_nat (length l) + k)) l
  else take (Z.to_nat k) l.

(** [[x] * n]: empty when [n] is not positive. *)
Definition list_times {A} (x : A) (n : Z) : list A := replicate (Z.to_nat n) x.

(** [enumerate(l)], as the list of its pairs. *)
Definition enumerate {A} (l : list A) : list (nat * A) :=
  imap (λ i x, (i, x)) l.

(** [list.sort(key=..., reverse=...)]. CPython sorts stably and compares the
    keys with [<] alone; with [reverse=True] it reverses the list, sorts it
    ascending and reverses it again, which keeps equal keys in their
    original order. The ascending sort is written here as the insertion sort
    CPython uses on short runs: every stable sort returns the same list when
    [<] is a strict weak order on the keys, which is where the ordering
    theorems below apply. *)
Section list_sort.
Context {A K : Type} (lt : K → K → bool) (key : A → K).

(** [x] goes before the first element whose key is greater. *)
Fixpoint insort (x : A) (l : list A) : list A :=
  match l with
  | [] => [x]
  | y :: l' => if lt (key x) (key y) then x :: l else y :: insort x l'
  end.

Definition sort_ascending (l : list A) : list A :=
  fold_left (λ acc x, insort x acc) l [].

Definition list_sort (reversed : bool) (l : list A) : list A :=
  if reversed then reverse (sort_ascending (reverse l)) else sort_ascending l.
End list_sort.

(** ** numpy on lists of floats *)

Module np.
Local Open Scope float_scope.

(** The sum of products of two arrays of one length. numpy hands the arrays
    to the BLAS routine [ddot], which fixes the order of the additions; the
    sum is written here from [0.0], left to right. For arrays of one
    component there is one product and no order to choose. *)
Definition inner (a b : list float) : float :=
  fold_left (λ acc xy, acc + fst xy * snd xy) (zip a b) 0.

Definition not_aligned (n m : nat) : str :=
  lit "shapes (" ++ lit (pretty n) ++ lit ",) and (" ++ lit (pretty m)
  ++ lit ",) not aligned: " ++ lit (pretty n) ++ lit " (dim 0) != "
  ++ lit (pretty m) ++ lit " (dim 0)".

(** [np.dot] of two one-dimensional arrays. *)
Definition dot (a b : list float) : result float :=
  if decide (length a = length b) then Ok (inner a b)
  else Raise (ValueError (not_aligned (length a) (length b))).

(** [np.linalg.norm] of a one-dimensional array: [sqrt(x.dot(x))]. *)
Definition linalg_norm (a : list float) : float := PrimFloat.sqrt (inner a a).

(** [np.array] of a nested list: the rows must have one length (numpy 1.24
    and later raise on a ragged list). *)
Definition inhomogeneous (n : nat) : str :=
  lit "setting an array element with a sequence. The requested array has an inhomogeneous shape after 1 dimensions. The detected shape was ("
  ++ lit (pretty n) ++ lit ",) + inhomogeneous part.".

Definition array2 (rows : list (list float)) : result (list (list float)) :=
  match rows with
  | [] => Ok []
  | r :: rs =>
      if forallb (λ r', Nat.eqb (length r') (length r)) rs then Ok rows
      else Raise (ValueError (inhomogeneous (length rows)))
  end.

(** [add.reduce] of float64 items. The reduction starts from [+0.0]. Fewer
    than eight items of one contiguous run are added to it in order. From
    eight items on numpy adds them pairwise ([DOUBLE_pairwise_sum] of
    [loops_utils.h]): up to [PW_BLOCKSIZE = 128] items go to eight
    accumulators, every eighth item to each; the accumulators are added up as
    a tree and the items left over, fewer than eight, are added in order. A
    longer run is cut in two, the first part a multiple of eight long, and
    the sums of the parts are added. *)
Definition tree8 (r : list float) : float :=
  match r with
  | [r0; r1; r2; r3; r4; r5; r6; r7] =>
      ((r0 + r1) + (r2 + r3)) + ((r4 + r5) + (r6 + r7))
  | _ => 0
  end.

(** The unrolled loop: [blocks] times the next eight items are added to the
    accumulators [r]. *)
Fixpoint unrolled (blocks : nat) (r a : list float) : list float * list float :=
  match blocks with
  | O => (r, a)
  | S blocks' => unrolled blocks' (zip_with PrimFloat.add r (take 8 a)) (drop 8 a)
  end.

(** A block of [8] to [128] items. *)
Definition block_sum (a : list float) : float :=
  let '(r, rest) := unrolled (length a / 8 - 1)%nat (take 8 a) (drop 8 a) in
  fold_left PrimFloat.add rest (tree8 r).

(** The recursion on the halves; a part is shorter than the whole, so a
    [depth] of the number of items is never used up
    ([pairwise_sum_depth]). *)
Fixpoint pairwise_sum (depth : nat) (a : list float) : float :=
  match depth with
  | O => block_sum a
  | S depth' =>
      if (length a <=? 128)%nat then block_sum a
      else
        let n2 := (length a / 2 - (length a / 2) mod 8)%nat in
        pairwise_sum depth' (take n2 a) + pairwise_sum depth' (drop n2 a)
  end.

(** [a.sum()] of one contiguous run of items. *)
Definition sum (l : list float) : float :=
  if (length l <? 8)%nat then fold_left PrimFloat.add l 0
  else 0 + pairwise_sum (length l) l.

(** [a.sum(axis=0)] of a rectangular array. With rows of two or more
    components the result starts as zeros and the rows are added to it in
    order, component by component. Rows of one component lie in memory as
    one contiguous run, which is summed as such. *)
Definition sum_axis0 (rows : list (list float)) : list float :=
  match rows with
  | [] => []
  | r :: _ =>
      if decide (length r = 1%nat) then [sum (concat rows)]
      else fold_left (zip_with PrimFloat.add) rows (replicate (length r) 0)
  end.

(** An item count as a [float64]: the cast [true_divide] makes of the
    number of rows, exact below [2^53]. *)
Definition of_count (n : nat) : float :=
  PrimFloat.of_uint63 (Uint63.of_Z (Z.of_nat n)).

(** [np.mean(a, axis=0)]. *)
Definition mean_axis0 (rows : list (list float)) : list float :=
  (λ x, x / of_count (length rows)) <$> sum_axis0 rows.

(** [np.average(a, axis=0, weights=w)] with one-dimensional weights: the
    length check (with the message of numpy 1.x; numpy 2 words it
    otherwise), the sum of the weights [scl], a contiguous run, and its zero
    check, then the weighted rows summed and divided by [scl]. *)
Definition average_axis0 (rows : list (list float)) (w : list float)
  : result (list float) :=
  if decide (length w = length rows) then
    let scl := sum w in
    if scl =? 0 then
      Raise (ZeroDivisionError (lit "Weights sum to zero, can't be normalized"))
    else
      Ok ((λ x, x / scl) <$>
            sum_axis0 (zip_with (λ row wi, (λ x, x * wi) <$> row) rows w))
  else
    Raise (ValueError (lit "Length of weights not compatible with specified axis.")).
End np.

(** ** Effects: the log and the embeddings client *)

Inductive level : Type := DEBUG | INFO | WARNING | ERROR.

Inductive event : Type :=
  | Log (lvl : level) (msg : str)
  | AembedQuery (text : str).

(** A coroutine of the service: the events it performs and how it ends. *)
Definition M (A : Type) : Type := list event * result A.

Definition ret {A} (a : A) : M A := ([], Ok a).
Definition raise {A} (e : exception) : M A := ([], Raise e).
Definition log (lvl : level) (msg : str) : M unit := ([Log lvl msg], Ok tt).

Definition bind {A B} (m : M A) (f : A → M B) : M B :=
  match m with
  | (evs, Ok a) => let '(evs', r) := f a in (evs ++ evs', r)
  | (evs, Raise e) => (evs, Raise e)
  end.

(** [try: body except Exception as e: handler(e)]. *)
Definition try_except {A} (body : M A) (handler : exception → M A) : M A :=
  match body with
  | (evs, Ok a) => (evs, Ok a)
  | (evs, Raise e) => let '(evs', r) := handler e in (evs ++ evs', r)
  end.

#[export] Instance M_ret : MRet M := @ret.
#[export] Instance M_bind : MBind M := λ A B f m, bind m f.

(** ** The service *)

(** [settings]: the two fields the service reads. *)
Record Settings : Type := {
  openai_model : str;
  embedding_dimensions : Z
}.

(** The embeddings client ([OpenAIEmbeddings.aembed_query]): it answers a
    text with a vector or raises. Only [Exception]s are modelled; the
    cancellation of the task is not an outcome of the call. *)
Definition client : Type := str → result (list float).

Record EmbeddingService : Type := {
  openai_embeddings : client;
  dimensions : Z
}.

Definition aembed_query (c : client) (text : str) : M (list float) :=
  ([AembedQuery text], c text).

(** [__init__], given the client built for the configured model. *)
Definition init (settings : Settings) (c : client) : M EmbeddingService :=
  log INFO (lit "EmbeddingService initialized with model: "
            ++ openai_model settings);;
  ret {| openai_embeddings := c; dimensions := embedding_dimensions settings |}.

Section service.
Variable settings : Settings.
Local Open Scope float_scope.

Definition embed_text (self : EmbeddingService) (text : str) : M (list float) :=
  if decide (strip text = []) then
    log WARNING (lit "Empty text provided for embedding");;
    ret (list_times 0 (dimensions self))
  else
    try_except
      (embedding ← aembed_query (openai_embeddings self) text;
       log DEBUG (lit "Generated embedding for text: " ++ slice_to text 50
                  ++ lit "...");;
       ret embedding)
      (λ e,
         log ERROR (lit "Error generating embedding: " ++ str_of_exception e);;
         raise e).

Definition cosine_similarity (vec1 vec2 : list float) : result float :=
  dot_product ← np.dot vec1 vec2;
  let magnitude1 := np.linalg_norm vec1 in
  let magnitude2 := np.linalg_norm vec2 in
  if (magnitude1 =? 0) || (magnitude2 =? 0) then Ok 0
  else Ok (dot_product / (magnitude1 * magnitude2)).

Definition combine_embeddings (embeddings : list (list float))
    (weights : option (list float)) : result (list float) :=
  match embeddings with
  | [] => Ok []
  | _ =>
      embeddings_np ← np.array2 embeddings;
      match weights with
      | None => Ok (np.mean_axis0 embeddings_np)
      | Some w => np.average_axis0 embeddings_np w
      end
  end.

(** The list of [(i, similarity)] before it is sorted. *)
Definition similarities (query_embedding : list float)
    (candidate_embeddings : list (list float)) : result (list (nat * float)) :=
  result_mapM
    (λ ic, similarity ← cosine_similarity query_embedding (snd ic);
           Ok (fst ic, similarity))
    (enumerate candidate_embeddings).

Definition semantic_search (query_embedding : list float)
    (candidate_embeddings : list (list float)) (top_k : Z)
  : result (list (nat * float)) :=
  match candidate_embeddings with
  | [] => Ok []
  | _ =>
      sims ← similarities query_embedding candidate_embeddings;
      Ok (slice_to (list_sort PrimFloat.ltb snd true sims) top_k)
  end.

Definition default_top_k : Z := 5.

Definition health_check (self : EmbeddingService) : M (gmap string pyval) :=
  try_except
    (test_embedding ← embed_text self (lit "health check");
     ret (<["status" := PyStr (lit "healthy")]>
          (<["model" := PyStr (openai_model settings)]>
          (<["dimensions" := PyInt (dimensions self)]>
          (<["test_embedding_length" :=
               PyInt (Z.of_nat (length test_embedding))]> ∅)))))
    (λ e,
       log ERROR (lit "Health check failed: " ++ str_of_exception e);;
       ret (<["status" := PyStr (lit "unhealthy")]>
            (<["error" := PyStr (str_of_exception e)]>
            (<["model" := PyStr (openai_model settings)]>
            (<["dimensions" := PyInt (dimensions self)]> ∅))))).
End service.

(** ** The application around the service *)

(** What the rest of the application can raise: the exceptions above (numpy's,
    and those of the embeddings client and of SQLAlchemy, which are
    [ClientError]s: a class name and a message), and Python's own for a
    missing key, a value of the wrong type and a model that does not
    validate. *)
Inductive raised : Type :=
  | Exc (e : exception)
  | KeyError (key : string)
  | TypeError (msg : str)
  | ValidationError (msg : str).

(** [str(e)]; a [KeyError] prints the [repr] of its key. *)
Definition str_of_raised (e : raised) : str :=
  match e with
  | Exc e => str_of_exception e
  | KeyError key => lit "'" ++ lit key ++ lit "'"
  | TypeError msg | ValidationError msg => msg
  end.

Inductive outcome (A : Type) : Type :=
  | Returned (a : A)
  | Raised (e : raised).
Arguments Returned {A} a.
Arguments Raised {A} e.

Definition outcome_of {A} (r : result A) : outcome A :=
  match r with
  | Ok a => Returned a
  | Raise e => Raised (Exc e)
  end.

#[export] Instance outcome_ret : MRet outcome := @Returned.
#[export] Instance outcome_bind : MBind outcome := λ A B f r,
  match r with
  | Returned a => f a
  | Raised e => Raised e
  end.

(** The calls made to SQLAlchemy: entering and leaving the block of
    [async_engine.begin()] and its two statements, entering and leaving a
    session and its query, and the disposal of the two engines. Leaving a
    block is told whether the block raised. *)
Inductive db_call : Type :=
  | EngineBegin
  | ConnExecute (sql : str)
  | CreateAll
  | EngineExit (failed : bool)
  | SessionEnter
  | SessionExecute (sql : str)
  | SessionExit (failed : bool)
  | AsyncDispose
  | SyncDispose.

(** The effects of the application: the events of the service, the batch
    call of the embeddings client, the records of the logger of [app.main]
    and the calls to the database. *)
Inductive effect : Type :=
  | Service (e : event)
  | AembedDocuments (texts : list str)
  | MainLog (lvl : level) (msg : str)
  | Db (c : db_call).

#[export] Instance level_eq_dec : EqDecision level.
Proof. solve_decision. Defined.

#[export] Instance event_eq_dec : EqDecision event.
Proof. solve_decision. Defined.

#[export] Instance db_call_eq_dec : EqDecision db_call.
Proof. solve_decision. Defined.

#[export] Instance effect_eq_dec : EqDecision effect.
Proof. solve_decision. Defined.

(** A coroutine of the application. *)
Definition App (A : Type) : Type := list effect * outcome A.

Definition app_ret {A} (a : A) : App A := ([], Returned a).
Definition app_raise {A} (e : raised) : App A := ([], Raised e).

Definition app_bind {A B} (m : App A) (f : A → App B) : App B :=
  match m with
  | (effs, Returned a) => let '(effs', r) := f a in (effs ++ effs', r)
  | (effs, Raised e) => (effs, Raised e)
  end.

#[export] Instance App_ret : MRet App := @app_ret.
#[export] Instance App_bind : MBind App := λ A B f m, app_bind m f.

(** [try: body except Exception as e: handler(e)]. *)
Definition app_try {A} (body : App A) (handler : raised → App A) : App A :=
  match body with
  | (effs, Returned a) => (effs, Returned a)
  | (effs, Raised e) => let '(effs', r) := handler e in (effs ++ effs', r)
  end.

(** A coroutine of the service, awaited by the application. *)
Definition await {A} (m : M A) : App A := (Service <$> m.1, outcome_of m.2).

(** The loggers of [app.core.embeddings] and of [app.main]. *)
Definition service_log (lvl : level) (msg : str) : App () :=
  await (log lvl msg).

Definition main_log (lvl : level) (msg : str) : App () :=
  ([MainLog lvl msg], Returned ()).

(** [async with manager as x: body]. The manager is entered; when that
    raises, nothing else runs. After the body the manager is left, and is
    told whether the body raised. The managers of SQLAlchemy swallow no
    exception: the exception of the body is raised again, unless leaving
    raises one of its own. *)
Definition async_with {A} (enter : App ()) (leave : bool → App ())
    (body : App A) : App A :=
  enter;;
  match body with
  | (effs, Returned a) =>
      match leave false with
      | (effs', Returned _) => (effs ++ effs', Returned a)
      | (effs', Raised e') => (effs ++ effs', Raised e')
      end
  | (effs, Raised e) =>
      match leave true with
      | (effs', Returned _) => (effs ++ effs', Raised e)
      | (effs', Raised e') => (effs ++ effs', Raised e')
      end
  end.

(** *** [embed_texts] of the service *)

(** [OpenAIEmbeddings.aembed_documents], the batch method of the client
    whose query method [EmbeddingService] holds above; [embed_texts] reads
    nothing else of the service, and is given the method itself. *)
Definition documents_client : Type := list str → result (list (list float)).

Definition aembed_documents (c : documents_client) (texts : list str)
  : App (list (list float)) :=
  ([AembedDocuments texts], outcome_of (c texts)).

Definition embed_texts (c : documents_client) (texts : list str)
  : App (list (list float)) :=
  match texts with
  | [] => app_ret []
  | _ =>
      app_try
        (embeddings ← aembed_documents c texts;
         service_log DEBUG (lit "Generated embeddings for "
                            ++ lit (pretty (length texts)) ++ lit " texts");;
         app_ret embeddings)
        (λ e,
           service_log ERROR (lit "Error generating embeddings: "
                              ++ str_of_raised e);;
           app_raise e)
  end.

(** *** [app/core/database.py] *)

(** The settings the application reads besides those of the service. *)
Record AppSettings : Type := {
  service_settings : Settings;
  app_version : str;
  database_url : str
}.

Module database.

(** The engines and the session factory, by what each call answers: it
    returns or raises. *)
Record Engines : Type := {
  engine_begin : result ();
  conn_execute : str → result ();
  create_all : result ();
  engine_exit : bool → result ();
  session_enter : result ();
  session_execute : str → result ();
  session_exit : bool → result ();
  async_dispose : result ();
  sync_dispose : result ()
}.

Definition call (c : db_call) (answer : result ()) : App () :=
  ([Db c], outcome_of answer).

Definition init_db (db : Engines) : App () :=
  async_with (call EngineBegin (engine_begin db))
    (λ failed, call (EngineExit failed) (engine_exit db failed))
    (call (ConnExecute (lit "CREATE EXTENSION IF NOT EXISTS vector"))
       (conn_execute db (lit "CREATE EXTENSION IF NOT EXISTS vector"));;
     call CreateAll (create_all db)).

Definition close_db (db : Engines) : App () :=
  call AsyncDispose (async_dispose db);;
  call SyncDispose (sync_dispose db).

Definition check_db_health (db : Engines) : App bool :=
  app_try
    (async_with (call SessionEnter (session_enter db))
       (λ failed, call (SessionExit failed) (session_exit db failed))
       (call (SessionExecute (lit "SELECT 1")) (session_execute db (lit "SELECT 1"));;
        app_ret true))
    (λ _, app_ret false).

(** The methods of [DatabaseManager]. *)
Definition initialize (db : Engines) : App () := init_db db.

Definition close (db : Engines) : App () := close_db db.

Definition health_check (settings : AppSettings) (db : Engines)
  : App (gmap string pyval) :=
  app_try
    (is_healthy ← check_db_health db;
     app_ret (<["status" := PyStr (if is_healthy : bool then lit "healthy"
                                   else lit "unhealthy")]>
              (<["database_url" := PyStr (database_url settings)]> ∅)))
    (λ e,
       app_ret (<["status" := PyStr (lit "unhealthy")]>
                (<["error" := PyStr (str_of_raised e)]> ∅))).
End database.

(** *** [app/main.py] *)

#[export] Instance pyval_eq_dec : EqDecision pyval.
Proof. solve_decision. Defined.

(** [HealthResponse] of [app/schemas/common.py]. *)
Record HealthResponse : Type := {
  status : str;
  services : gmap string str;
  version : str
}.

Definition as_str (v : pyval) : option str :=
  match v with
  | PyStr s => Some s
  | PyInt _ => None
  end.

Module main.
Section main.
Variable settings : AppSettings.
(** [str] of a dictionary, and the report of pydantic on the services it
    refuses: texts the application only logs. *)
Variable str_of_dict : gmap string pyval → str.
Variable validation_report : gmap string pyval → str.

(** [HealthResponse(status=..., services=..., version=...)]: pydantic 2
    takes the services when all of them are strings. *)
Definition new_HealthResponse (status : str) (services : gmap string pyval)
    (version : str) : App HealthResponse :=
  if decide (map_Forall (λ _ v, is_Some (as_str v)) services) then
    app_ret {| status := status; services := omap as_str services;
               version := version |}
  else app_raise (ValidationError (validation_report services)).

(** [d[key]]. *)
Definition getitem (d : gmap string pyval) (key : string) : App pyval :=
  match d !! key with
  | Some v => app_ret v
  | None => app_raise (KeyError key)
  end.

(** [lifespan] up to its [yield]. *)
Definition lifespan_startup (db : database.Engines)
    (embedding_service : EmbeddingService) : App () :=
  main_log INFO (lit "Starting up application...");;
  app_try
    (database.initialize db;;
     main_log INFO (lit "Database initialized successfully");;
     health_check ←
       await (health_check (service_settings settings) embedding_service);
     st ← getitem health_check "status";
     if decide (st = PyStr (lit "healthy")) then
       main_log INFO (lit "Embedding service initialized successfully")
     else
       main_log ERROR (lit "Embedding service health check failed: "
                       ++ str_of_dict health_check))
    (λ e,
       main_log ERROR (lit "Startup failed: " ++ str_of_raised e);;
       main_log WARNING (lit "Continuing without database connection...")).

(** [lifespan] after its [yield]. *)
Definition lifespan_shutdown (db : database.Engines) : App () :=
  main_log INFO (lit "Shutting down application...");;
  app_try
    (database.close db;;
     main_log INFO (lit "Database connections closed"))
    (λ e, main_log ERROR (lit "Shutdown error: " ++ str_of_raised e)).

(** The context manager around the serving of the application: an
    exception of the serving is thrown at the [yield], which no [try]
    encloses. *)
Definition lifespan (db : database.Engines) (embedding_service : EmbeddingService)
    (serving : App ()) : App () :=
  lifespan_startup db embedding_service;;
  serving;;
  lifespan_shutdown db.

(** The endpoint [GET /health]. *)
Definition health_check (db : database.Engines)
    (embedding_service : EmbeddingService) : App HealthResponse :=
  app_try
    (db_health ←
       app_try (database.health_check settings db)
         (λ e, app_ret (<["status" := PyStr (lit "unavailable")]>
                        (<["error" := PyStr (str_of_raised e)]> ∅)));
     embedding_health ←
       app_try
         (await (health_check (service_settings settings) embedding_service))
         (λ e, app_ret (<["status" := PyStr (lit "unavailable")]>
                        (<["error" := PyStr (str_of_raised e)]> ∅)));
     let is_healthy :=
       bool_decide (db_health !! "status" = Some (PyStr (lit "healthy")))
       && bool_decide (embedding_health !! "status"
                       = Some (PyStr (lit "healthy"))) in
     let services : gmap string pyval :=
       <["database" := default (PyStr (lit "unknown")) (db_health !! "status")]>
       (<["embedding_service" :=
            default (PyStr (lit "unknown")) (embedding_health !! "status")]> ∅) in
     new_HealthResponse (if is_healthy then lit "healthy" else lit "degraded")
       services (app_version settings))
    (λ e,
       main_log ERROR (lit "Health check failed: " ++ str_of_raised e);;
       new_HealthResponse (lit "unhealthy")
         (<["error" := PyStr (str_of_raised e)]> ∅) (app_version settings)).
End main.
End main.

(** ** The validators of the schemas *)

(** [s.startswith(prefixes)], for a tuple of prefixes. *)
Definition startswith (s : str) (prefixes : list str) : bool :=
  existsb (λ p, bool_decide (p `prefix_of` s)) prefixes.

(** [s.split(sep, 1)], for a separator of one character: the text before its
    first occurrence and the text after it, or the text alone. *)
Fixpoint split_once (sep : N) (s : str) : list str :=
  match s with
  | [] => [[]]
  | c :: s' =>
      if (c =? sep)%N then [[]; s']
      else match split_once sep s' with
           | before :: after => (c :: before) :: after
           | [] => []
           end
  end.

(** [sep.join(parts)]. *)
Fixpoint join (sep : str) (parts : list str) : str :=
  match parts with
  | [] => []
  | p :: ps =>
      match ps with
      | [] => p
      | _ :: _ => p ++ sep ++ join sep ps
      end
  end.

Definition schemes : list str := [lit "http://"; lit "https://"].

(** [app/schemas/product.py]: [validate_url] of [ProductBase]; [ProductUpdate]
    has the same function. *)
Module ProductBase.
Definition validate_url (v : option str) : option str :=
  match v with
  | Some s =>
      if negb (startswith s schemes) then Some (lit "https://" ++ s) else v
  | None => v
  end.
End ProductBase.

(** [app/schemas/owner.py]: [validate_url] of [SolutionOwnerBase], which
    [SolutionOwnerUpdate] repeats; it tests [v] itself, not [v is not None]. *)
Module SolutionOwnerBase.
Definition validate_url (v : option str) : option str :=
  match v with
  | Some s =>
      if bool_decide (s ≠ []) && negb (startswith s schemes)
      then Some (lit "https://" ++ s) else v
  | None => v
  end.
End SolutionOwnerBase.

Module SolutionOwnerResponse.
(** [local, domain = v.split('@', 1)] unpacks two values. *)
Definition mask_email (v : str) : result str :=
  if bool_decide (64%N ∈ v) then
    match split_once 64 v with
    | [local; domain] =>
        if decide (2 < length local) then
          let masked_local :=
            slice_to local 2 ++ list_times 42%N (Z.of_nat (length local) - 2) in
          Ok (masked_local ++ lit "@" ++ domain)
        else Ok v
    | parts =>
        Raise (ValueError
                 (lit "not enough values to unpack (expected 2, got "
                  ++ lit (pretty (length parts)) ++ lit ")"))
    end
  else Ok v.
End SolutionOwnerResponse.

(** ** The models *)

(** The value of a JSON column. *)
#[local] Unset Elimination Schemes.
Inductive json : Type :=
  | JNull
  | JBool (b : bool)
  | JInt (n : Z)
  | JFloat (x : float)
  | JStr (s : str)
  | JList (items : list json)
  | JDict (items : list (str * json)).
#[local] Set Elimination Schemes.

(** The truth value of a string attribute ([None] or a text) and of a JSON
    value. *)
Definition truthy_str (v : option str) : bool :=
  match v with
  | Some (_ :: _) => true
  | _ => false
  end.

Definition truthy (v : json) : bool :=
  match v with
  | JNull => false
  | JBool b => b
  | JInt n => negb (n =? 0)%Z
  | JFloat x => negb (x =? 0)%float
  | JStr s => bool_decide (s ≠ [])
  | JList items => bool_decide (items ≠ [])
  | JDict items => bool_decide (items ≠ [])
  end.

Definition type_name (v : json) : string :=
  match v with
  | JNull => "NoneType"
  | JBool _ => "bool"
  | JInt _ => "int"
  | JFloat _ => "float"
  | JStr _ => "str"
  | JList _ => "list"
  | JDict _ => "dict"
  end.

(** A string attribute inside an f-string: [None] prints as its name. *)
Definition format_opt (v : option str) : str := default (lit "None") v.

(** The items of [sep.join(items)], which must all be strings; [i] is the
    place of the first of them. *)
Fixpoint str_items (i : nat) (items : list json) : outcome (list str) :=
  match items with
  | [] => Returned []
  | JStr s :: items' => ss ← str_items (S i) items'; Returned (s :: ss)
  | v :: _ =>
      Raised (TypeError (lit "sequence item " ++ lit (pretty i)
                         ++ lit ": expected str instance, "
                         ++ lit (type_name v) ++ lit " found"))
  end.

(** [if field: parts.append(f"{label}{field}")], as the parts it adds. *)
Definition part (label : string) (field : option str) : list str :=
  if truthy_str field then [lit label ++ format_opt field] else [].

(** [str.title] on ASCII text: a letter that follows a letter is lowered,
    any other letter is raised. *)
Fixpoint title_from (after_letter : bool) (s : str) : str :=
  match s with
  | [] => []
  | c :: s' =>
      if ((97 <=? c) && (c <=? 122))%N then
        (if after_letter then c else (c - 32)%N) :: title_from true s'
      else if ((65 <=? c) && (c <=? 90))%N then
        (if after_letter then (c + 32)%N else c) :: title_from true s'
      else c :: title_from false s'
  end.

Definition title (s : str) : str := title_from false s.

Section models.
(** [repr] of a JSON value that is not a string: a text the models only
    paste into theirs. *)
Variable repr : json → str.

(** [str(v)], and [f"{v}"]. *)
Definition str_of_json (v : json) : str :=
  match v with
  | JStr s => s
  | _ => repr v
  end.

(** [if field: text = ", ".join(field) if isinstance(field, list) else
    str(field); parts.append(f"{label}{text}")]. *)
Definition json_part (label : string) (field : json) : outcome (list str) :=
  if truthy field then
    text ← match field with
           | JList items => ss ← str_items 0 items; Returned (join (lit ", ") ss)
           | _ => Returned (str_of_json field)
           end;
    Returned [lit label ++ text]
  else Returned [].
End models.

(** A [datetime] without time zone, as the [DateTime] columns hold, and its
    [isoformat()]: the microseconds are printed when they are not zero. *)
Module datetime.
Record t : Type := {
  year : nat;
  month : nat;
  day : nat;
  hour : nat;
  minute : nat;
  second : nat;
  microsecond : nat
}.

(** [n] in decimal, with zeros before it up to [width] digits. *)
Definition zero_padded (width n : nat) : str :=
  replicate (width - length (lit (pretty n))) 48%N ++ lit (pretty n).

Definition isoformat (d : t) : str :=
  zero_padded 4 (year d) ++ lit "-" ++ zero_padded 2 (month d) ++ lit "-"
  ++ zero_padded 2 (day d) ++ lit "T" ++ zero_padded 2 (hour d) ++ lit ":"
  ++ zero_padded 2 (minute d) ++ lit ":" ++ zero_padded 2 (second d)
  ++ if Nat.eqb (microsecond d) 0 then []
     else lit "." ++ zero_padded 6 (microsecond d).
End datetime.

(** A [Decimal] of a [Numeric] column: a sign, a coefficient and an
    exponent. It is false when it is zero. *)
Module Decimal.
Record t : Type := {
  sign : bool;
  coefficient : N;
  exponent : Z
}.

Definition to_bool (d : t) : bool := negb (coefficient d =? 0)%N.
End Decimal.

(** An attribute in a dictionary for the API: [None] is [null]. *)
Definition json_of {A} (f : A → json) (v : option A) : json :=
  from_option f JNull v.

(** [x.isoformat() if x else None]. *)
Definition json_of_datetime (v : option datetime.t) : json :=
  json_of (λ d, JStr (datetime.isoformat d)) v.

(** [app/models/owner.py] *)
Module SolutionOwner.
(** The attributes that the methods read. *)
Record t : Type := {
  id : option Z;
  name : option str;
  email : option str;
  description : option str;
  website : option str;
  industry : option str;
  size : option str;
  location : option str;
  contact_name : option str;
  contact_phone : option str;
  contact_email : option str;
  active : option bool;
  verified : option bool;
  search_keywords : option str;
  summary : option str;
  created_at : option datetime.t;
  updated_at : option datetime.t
}.

Definition to_text_for_embedding (self : t) : str :=
  join (lit " | ")
    (part "Company: " (name self)
     ++ part "Description: " (description self)
     ++ part "Industry: " (industry self)
     ++ part "Size: " (size self)
     ++ part "Location: " (location self)
     ++ part "Keywords: " (search_keywords self)
     ++ part "Summary: " (summary self)).

(** The dictionary, as the list of its items in the order of the source. *)
Definition to_dict (self : t) : list (str * json) :=
  [(lit "id", json_of JInt (id self));
   (lit "name", json_of JStr (name self));
   (lit "email", json_of JStr (email self));
   (lit "description", json_of JStr (description self));
   (lit "website", json_of JStr (website self));
   (lit "industry", json_of JStr (industry self));
   (lit "size", json_of JStr (size self));
   (lit "location", json_of JStr (location self));
   (lit "contact_name", json_of JStr (contact_name self));
   (lit "contact_phone", json_of JStr (contact_phone self));
   (lit "contact_email", json_of JStr (contact_email self));
   (lit "active", json_of JBool (active self));
   (lit "verified", json_of JBool (verified self));
   (lit "search_keywords", json_of JStr (search_keywords self));
   (lit "summary", json_of JStr (summary self));
   (lit "created_at", json_of_datetime (created_at self));
   (lit "updated_at", json_of_datetime (updated_at self))].
End SolutionOwner.

(** [app/models/product.py] *)
Module Product.
Record t : Type := {
  id : option Z;
  name : option str;
  description : option str;
  category : option str;
  subcategory : option str;
  owner_id : option Z;
  owner : option SolutionOwner.t;
  version : option str;
  price : option Decimal.t;
  pricing_model : option str;
  currency : option str;
  platform : option str;
  integrations : json;
  features : json;
  tech_stack : json;
  available : option bool;
  demo_available : option bool;
  trial_available : option bool;
  website_url : option str;
  demo_url : option str;
  documentation_url : option str;
  rating : option Decimal.t;
  total_reviews : option Z;
  popularity_score : option Decimal.t;
  search_keywords : option str;
  summary : option str;
  use_cases : json;
  target_audience : option str;
  created_at : option datetime.t;
  updated_at : option datetime.t
}.

Section to_text.
Variable repr : json → str.

Definition to_text_for_embedding (self : t) : outcome str :=
  features_part ← json_part repr "Features: " (features self);
  tech_part ← json_part repr "Technology: " (tech_stack self);
  use_cases_part ← json_part repr "Use Cases: " (use_cases self);
  Returned
    (join (lit " | ")
       (part "Product: " (name self)
        ++ part "Description: " (description self)
        ++ part "Category: " (category self)
        ++ part "Subcategory: " (subcategory self)
        ++ part "Platform: " (platform self)
        ++ features_part ++ tech_part ++ use_cases_part
        ++ part "Target Audience: " (target_audience self)
        ++ part "Keywords: " (search_keywords self)
        ++ part "Summary: " (summary self)
        ++ match owner self with
           | Some o =>
               (lit "Company: " ++ format_opt (SolutionOwner.name o))
               :: part "Industry: " (SolutionOwner.industry o)
           | None => []
           end)).
End to_text.

Section to_dict.
(** [float(d)]: the binary64 number nearest to the decimal. *)
Variable float_of_decimal : Decimal.t → float.

(** [float(x) if x else None]. *)
Definition json_of_decimal (v : option Decimal.t) : json :=
  match v with
  | Some d => if Decimal.to_bool d then JFloat (float_of_decimal d) else JNull
  | None => JNull
  end.

Definition to_dict (self : t) : list (str * json) :=
  [(lit "id", json_of JInt (id self));
   (lit "name", json_of JStr (name self));
   (lit "description", json_of JStr (description self));
   (lit "category", json_of JStr (category self));
   (lit "subcategory", json_of JStr (subcategory self));
   (lit "owner_id", json_of JInt (owner_id self));
   (lit "version", json_of JStr (version self));
   (lit "price", json_of_decimal (price self));
   (lit "pricing_model", json_of JStr (pricing_model self));
   (lit "currency", json_of JStr (currency self));
   (lit "platform", json_of JStr (platform self));
   (lit "integrations", integrations self);
   (lit "features", features self);
   (lit "tech_stack", tech_stack self);
   (lit "available", json_of JBool (available self));
   (lit "demo_available", json_of JBool (demo_available self));
   (lit "trial_available", json_of JBool (trial_available self));
   (lit "website_url", json_of JStr (website_url self));
   (lit "demo_url", json_of JStr (demo_url self));
   (lit "documentation_url", json_of JStr (documentation_url self));
   (lit "rating", json_of_decimal (rating self));
   (lit "total_reviews", json_of JInt (total_reviews self));
   (lit "popularity_score", json_of_decimal (popularity_score self));
   (lit "search_keywords", json_of JStr (search_keywords self));
   (lit "summary", json_of JStr (summary self));
   (lit "use_cases", use_cases self);
   (lit "target_audience", json_of JStr (target_audience self));
   (lit "created_at", json_of_datetime (created_at self));
   (lit "updated_at", json_of_datetime (updated_at self))].

(** [data["owner"] = ...] adds the key, which [to_dict] does not have. *)
Definition to_dict_with_owner (self : t) : list (str * json) :=
  let data := to_dict self in
  match owner self with
  | Some o => data ++ [(lit "owner", JDict (SolutionOwner.to_dict o))]
  | None => data
  end.
End to_dict.
End Product.

(** [app/models/chat.py] *)
Inductive MessageRole : Type := USER | ASSISTANT | SYSTEM.

Definition MessageRole_value (r : MessageRole) : str :=
  match r with
  | USER => lit "user"
  | ASSISTANT => lit "assistant"
  | SYSTEM => lit "system"
  end.

Inductive ContextType : Type :=
  ONBOARDING | CONVERSATION | PRODUCT_SEARCH | RECOMMENDATION.

Definition ContextType_value (c : ContextType) : str :=
  match c with
  | ONBOARDING => lit "onboarding"
  | CONVERSATION => lit "conversation"
  | PRODUCT_SEARCH => lit "product_search"
  | RECOMMENDATION => lit "recommendation"
  end.

Module UserChatHistory.
(** The attributes that [to_text_for_embedding] reads; [role] holds a member
    of the enumeration. *)
Record t : Type := {
  role : MessageRole;
  content : option str;
  context_data : json
}.

Section to_text.
Variable repr : json → str.

Definition to_text_for_embedding (self : t) : str :=
  join (lit " | ")
    ([lit "Role: " ++ MessageRole_value (role self);
      lit "Content: " ++ format_opt (content self)]
     ++ if truthy (context_data self)
        then [lit "Context: " ++ str_of_json repr (context_data self)] else []).
End to_text.
End UserChatHistory.

Module UserEnhancedContext.
Record t : Type := {
  context_type : ContextType;
  context_name : option str;
  summary : option str;
  context_data : json;
  message_count : option Z
}.

Definition context_keys : list str :=
  [lit "preferences"; lit "interests"; lit "goals"; lit "requirements"].

Section to_text.
Variable repr : json → str.

(** The loop over [context_data.items()]. *)
Definition context_parts (items : list (str * json)) : list str :=
  flat_map (λ kv : str * json,
              if bool_decide (kv.1 ∈ context_keys)
              then [title kv.1 ++ lit ": " ++ str_of_json repr kv.2] else [])
    items.

Definition to_text_for_embedding (self : t) : str :=
  join (lit " | ")
    ([lit "Type: " ++ ContextType_value (context_type self)]
     ++ part "Name: " (context_name self)
     ++ part "Summary: " (summary self)
     ++ if truthy (context_data self) then
          match context_data self with
          | JDict items => context_parts items
          | _ => []
          end
        else []).
End to_text.

(** [self.message_count = (self.message_count or 0) + 1]. *)
Definition increment_message_count (self : t) : t :=
  {| context_type := context_type self;
     context_name := context_name self;
     summary := summary self;
     context_data := context_data self;
     message_count :=
       Some ((match message_count self with
              | Some n => if (n =? 0)%Z then 0 else n
              | None => 0
              end + 1)%Z) |}.
End UserEnhancedContext.

(** ** Notions the statements use *)

(** *** Orders of sorted lists *)

Section sorted_orders.
Context {A K : Type} (lt : K → K → bool) (key : A → K).

(** [a] may stand before [b] in a list sorted upwards that keeps elements of
    equal keys in the order [before]. *)
Definition ascending (before : relation A) : relation A :=
  λ a b, lt (key b) (key a) = false
         ∧ (lt (key a) (key b) = false → before a b).

(** The same for a list sorted downwards. *)
Definition descending (before : relation A) : relation A :=
  λ a b, lt (key a) (key b) = false
         ∧ (lt (key b) (key a) = false → before a b).
End sorted_orders.

(** *** The order of binary64 *)

(** The place of a number in the order of binary64: sign class, then
    exponent, then mantissa. Both zeros share a place; NaN has none. *)
Definition sf_rank (x : spec_float) : Z * Z * Z :=
  match x with
  | S754_zero _ | S754_nan => (0, 0, 0)
  | S754_infinity s => (if s then -2 else 2, 0, 0)
  | S754_finite s m e => if s then (-1, - e, Z.neg m) else (1, e, Z.pos m)
  end%Z.

Definition rank_lt (p q : Z * Z * Z) : Prop :=
  (p.1.1 < q.1.1 ∨ p.1.1 = q.1.1 ∧ (p.1.2 < q.1.2 ∨ p.1.2 = q.1.2 ∧ p.2 < q.2))%Z.

Definition rank_eq (p q : Z * Z * Z) : Prop :=
  p.1.1 = q.1.1 ∧ p.1.2 = q.1.2 ∧ p.2 = q.2.

Definition sf_nan (x : spec_float) : bool :=
  match x with S754_nan => true | _ => false end.

(** *** Whole numbers in binary64 *)

(** The number of binary digits of [k]. *)
Definition digits (k : positive) : nat := Pos.to_nat (digits2_pos k).

(** The binary64 number of a positive integer below [2^53]: its digits moved
    up to fill the 53 bits of the mantissa. *)
Definition sf_of_pos (k : positive) : spec_float :=
  S754_finite false (Nat.iter (53 - digits k) xO k) (Z.of_nat (digits k) - 53).

(** *** The means, as the specification words them *)

(** The [j]-th components of the rows. *)
Definition column (j : nat) (rows : list (list float)) : list float :=
  (λ r, nth j r 0%float) <$> rows.

(** The items added in order, from [0.0]. *)
Definition sum_in_order (l : list float) : float :=
  fold_left PrimFloat.add l 0%float.

(** Per component: the components summed in order and divided by their
    number. *)
Definition unweighted_mean (d : nat) (rows : list (list float)) : list float :=
  (λ j, sum_in_order (column j rows) / np.of_count (length rows))%float <$> seq 0 d.

(** The weighted mean: per component, the sum of weight times component
    divided by the sum of the weights. *)
Definition weighted_mean (d : nat) (rows : list (list float)) (w : list float)
  : list float :=
  (λ j, sum_in_order (zip_with PrimFloat.mul (column j rows) w) / sum_in_order w)%float
    <$> seq 0 d.

(** A number with [+0.0] in the place of [-0.0]. *)
Definition unsigned_zero (x : float) : float :=
  if (x =? 0)%float then 0%float else x.

(** *** The health of the database and of the client *)

(** A call of the database returned; a coroutine returned. *)
Definition returns {A} (r : result A) : bool :=
  match r with
  | Ok _ => true
  | Raise _ => false
  end.

Definition returned {A} (r : outcome A) : bool :=
  match r with
  | Returned _ => true
  | Raised _ => false
  end.

(** The session answers the health query: it opens, executes and closes. *)
Definition session_ok (db : database.Engines) : bool :=
  match database.session_enter db, database.session_execute db (lit "SELECT 1"),
        database.session_exit db false with
  | Ok _, Ok _, Ok _ => true
  | _, _, _ => false
  end.

(** The embeddings client answers the test text. *)
Definition client_ok (self : EmbeddingService) : bool :=
  match openai_embeddings self (lit "health check") with
  | Ok _ => true
  | Raise _ => false
  end.

Definition status_word (ok : bool) : str :=
  if ok then lit "healthy" else lit "unhealthy".

(** *** Negated numbers *)

Definition sf_zero (x : spec_float) : bool :=
  match x with S754_zero _ => true | _ => false end.

(** [y] is [x] with the other sign, or both are zeros. *)
Definition sf_negated (x y : spec_float) : Prop :=
  y = SFopp x ∨ sf_zero x = true ∧ sf_zero y = true.

(** The same on binary64 numbers; in Python, [y == -x] or both are NaN. *)
Definition negated (x y : float) : Prop :=
  y = (- x)%float ∨ (x =? 0)%float = true ∧ (y =? 0)%float = true.

(** *** The parts of a text *)

(** A part that begins with a character that is no whitespace. *)
Definition labelled (p : str) : Prop :=
  match p with
  | c :: _ => isspace c = false
  | [] => False
  end.

(** No attribute of the owner gives a part of the text. *)
Definition owner_blank (o : SolutionOwner.t) : bool :=
  negb (truthy_str (SolutionOwner.name o) || truthy_str (SolutionOwner.description o)
        || truthy_str (SolutionOwner.industry o) || truthy_str (SolutionOwner.size o)
        || truthy_str (SolutionOwner.location o)
        || truthy_str (SolutionOwner.search_keywords o)
        || truthy_str (SolutionOwner.summary o)).

(** A JSON value that [", ".join] takes when it is a list. *)
Definition joinable (v : json) : bool :=
  match v with
  | JList items => forallb (λ x, match x with JStr _ => true | _ => false end) items
  | _ => true
  end.

(** The product with another price. *)
Definition with_price (self : Product.t) (price : option Decimal.t) : Product.t :=
  {| Product.id := Product.id self;
     Product.name := Product.name self;
     Product.description := Product.description self;
     Product.category := Product.category self;
     Product.subcategory := Product.subcategory self;
     Product.owner_id := Product.owner_id self;
     Product.owner := Product.owner self;
     Product.version := Product.version self;
     Product.price := price;
     Product.pricing_model := Product.pricing_model self;
     Product.currency := Product.currency self;
     Product.platform := Product.platform self;
     Product.integrations := Product.integrations self;
     Product.features := Product.features self;
     Product.tech_stack := Product.tech_stack self;
     Product.available := Product.available self;
     Product.demo_available := Product.demo_available self;
     Product.trial_available := Product.trial_available self;
     Product.website_url := Product.website_url self;
     Product.demo_url := Product.demo_url self;
     Product.documentation_url := Product.documentation_url self;
     Product.rating := Product.rating self;
     Product.total_reviews := Product.total_reviews self;
     Product.popularity_score := Product.popularity_score self;
     Product.search_keywords := Product.search_keywords self;
     Product.summary := Product.summary self;
     Product.use_cases := Product.use_cases self;
     Product.target_audience := Product.target_audience self;
     Product.created_at := Product.created_at self;
     Product.updated_at := Product.updated_at self |}.

(** The context with another [context_data], and with another
    [message_count]. *)
Definition with_context_data (self : UserEnhancedContext.t) (data : json)
  : UserEnhancedContext.t :=
  {| UserEnhancedContext.context_type := UserEnhancedContext.context_type self;
     UserEnhancedContext.context_name := UserEnhancedContext.context_name self;
     UserEnhancedContext.summary := UserEnhancedContext.summary self;
     UserEnhancedContext.context_data := data;
     UserEnhancedContext.message_count := UserEnhancedContext.message_count self |}.

Definition with_message_count (self : UserEnhancedContext.t) (count : option Z)
  : UserEnhancedContext.t :=
  {| UserEnhancedContext.context_type := UserEnhancedContext.context_type self;
     UserEnhancedContext.context_name := UserEnhancedContext.context_name self;
     UserEnhancedContext.summary := UserEnhancedContext.summary self;
     UserEnhancedContext.context_data := UserEnhancedContext.context_data self;
     UserEnhancedContext.message_count := count |}.

(** *** Sample inputs *)

(** The text of the warning. *)
Definition empty_text_warning : event :=
  Log WARNING (lit "Empty text provided for embedding").

(** A service of dimension 3 whose client is out of reach, and a blank text:
    a space, a tab and an ideographic space. *)
Definition unreachable_service : EmbeddingService :=
  {| openai_embeddings := λ _, Raise (ClientError "APIConnectionError" (lit "Connection error."));
     dimensions := 3 |}.

Definition blank_text : str := [32; 9; 12288]%N.

(** A query and four candidates: two equal to it, one orthogonal, one
    opposite. *)
Definition sample_query : list float := [1; 0]%float.

Definition sample_candidates : list (list float) :=
  [[1; 0]; [0; 1]; [1; 0]; [-1; 0]]%float.

(** Two vectors of dimension 2. *)
Definition sample_embeddings : list (list float) := [[1; 2]; [3; 4]]%float.

(** A stand-in for [repr], and an onboarding context. *)
Definition sample_repr : json → str := λ _, lit "...".

Definition sample_context : UserEnhancedContext.t :=
  {| UserEnhancedContext.context_type := ONBOARDING;
     UserEnhancedContext.context_name := Some (lit "Welcome");
     UserEnhancedContext.summary := None;
     UserEnhancedContext.context_data := JNull;
     UserEnhancedContext.message_count := None |}.

(** A product without a price, the price [0.00], and a stand-in for
    [float(d)]. *)
Definition sample_product : Product.t :=
  {| Product.id := Some 1%Z;
     Product.name := Some (lit "Starter");
     Product.description := None;
     Product.category := None;
     Product.subcategory := None;
     Product.owner_id := Some 1%Z;
     Product.owner := None;
     Product.version := None;
     Product.price := None;
     Product.pricing_model := Some (lit "Freemium");
     Product.currency := Some (lit "USD");
     Product.platform := None;
     Product.integrations := JNull;
     Product.features := JList [JStr (lit "search")];
     Product.tech_stack := JNull;
     Product.available := Some true;
     Product.demo_available := Some false;
     Product.trial_available := Some false;
     Product.website_url := None;
     Product.demo_url := None;
     Product.documentation_url := None;
     Product.rating := None;
     Product.total_reviews := Some 0%Z;
     Product.popularity_score := None;
     Product.search_keywords := None;
     Product.summary := None;
     Product.use_cases := JNull;
     Product.target_audience := None;
     Product.created_at := None;
     Product.updated_at := None |}.

Definition zero_price : Decimal.t :=
  {| Decimal.sign := false; Decimal.coefficient := 0; Decimal.exponent := -2 |}.

Definition sample_float_of_decimal : Decimal.t → float :=
  λ d, PrimFloat.of_uint63 (Uint63.of_Z (Z.of_N (Decimal.coefficient d))).

(** * Properties *)

(** ** The result monad *)

Lemma result_bind_Ok {A B} (r : result A) (f : A → result B) b :
  r ≫= f = Ok b ↔ ∃ a, r = Ok a ∧ f a = Ok b.
Proof.
  destruct r as [a|e]; simpl.
  - split; [eauto|]. intros (a' & [= <-] & ?); done.
  - split; [done|]. intros (? & ? & ?); done.
Qed.

Lemma result_mapM_Ok {A B} (f : A → result B) xs ys :
  result_mapM f xs = Ok ys ↔ Forall2 (λ x y, f x = Ok y) xs ys.
Proof.
  revert ys. induction xs as [|x xs IH]; intros ys; simpl.
  - split; [intros [= <-]; constructor | by inversion 1].
  - rewrite result_bind_Ok. split.
    + intros (y & Hy & (ys' & Hys & [= <-])%result_bind_Ok).
      constructor; [done | by apply IH].
    + inversion 1 as [|? y ? ys' Hy Hys]; subst.
      exists y. split; [done|]. apply result_bind_Ok.
      exists ys'. split; [by apply IH | done].
Qed.

Lemma result_mapM_total {A B} (f : A → result B) xs :
  Forall (λ x, ∃ y, f x = Ok y) xs → ∃ ys, result_mapM f xs = Ok ys.
Proof.
  induction 1 as [|x xs [y Hy] _ [ys Hys]]; simpl; [by eexists|].
  exists (y :: ys). by rewrite Hy, Hys.
Qed.

(** ** [str.strip] *)

Lemma lstrip_blank (s : str) : forallb isspace s = true → lstrip s = [].
Proof.
  induction s as [|c s IH]; simpl; [done|].
  intros [Hc Hs]%andb_true_iff. rewrite Hc. auto.
Qed.

Lemma strip_blank (s : str) : forallb isspace s = true → strip s = [].
Proof. intros Hs. unfold strip, rstrip. by rewrite (lstrip_blank s Hs). Qed.

Lemma lstrip_nil_inv (s : str) : lstrip s = [] → forallb isspace s = true.
Proof.
  induction s as [|c s IH]; simpl; [done|].
  destruct (isspace c); [auto | done].
Qed.

Lemma lstrip_head (s : str) c s' : lstrip s = c :: s' → isspace c = false.
Proof.
  induction s as [|d s IH]; simpl; [done|].
  destruct (isspace d) eqn:Hd; [auto|]. by intros [= <- <-].
Qed.

(** [not text.strip()] holds of the blank texts and of no other. *)
Lemma strip_nil_inv (s : str) : strip s = [] → forallb isspace s = true.
Proof.
  unfold strip, rstrip. intros Hs.
  apply lstrip_nil_inv.
  destruct (lstrip s) as [|c s'] eqn:Hl; [done|].
  apply (f_equal reverse) in Hs. rewrite reverse_involutive, reverse_nil in Hs.
  apply lstrip_nil_inv in Hs.
  rewrite reverse_cons, forallb_app in Hs. simpl in Hs.
  apply andb_true_iff in Hs as [_ Hc]. rewrite (lstrip_head _ _ _ Hl) in Hc. done.
Qed.

(** ** Slices *)

Lemma slice_to_nonneg {A} (l : list A) k :
  (0 ≤ k)%Z → slice_to l k = take (Z.to_nat k) l.
Proof. intros Hk. unfold slice_to. by rewrite (proj2 (Z.ltb_ge k 0)). Qed.

(** ** [list.sort] *)

Lemma StronglySorted_reverse {A} (R : relation A) l :
  StronglySorted R l → StronglySorted (flip R) (reverse l).
Proof.
  induction 1 as [|x l Hl IH Hx]; [constructor|].
  rewrite reverse_cons.
  apply StronglySorted_app. split_and!; [|done|repeat constructor].
  intros y z Hy ->%list_elem_of_singleton.
  rewrite Forall_forall in Hx. apply Hx. by apply elem_of_reverse.
Qed.

Lemma StronglySorted_lookup {A} (R : relation A) l i j a b :
  StronglySorted R l → i < j → l !! i = Some a → l !! j = Some b → R a b.
Proof.
  intros Hl Hij Ha Hb.
  rewrite <-(take_drop j l) in Hl.
  eapply StronglySorted_app_1_elem_of; [done| |].
  - apply list_elem_of_lookup. exists i. by rewrite lookup_take_lt.
  - apply list_elem_of_lookup. exists 0. by rewrite lookup_drop, Nat.add_0_r.
Qed.

Lemma StronglySorted_of_lookup {A} (R : relation A) l :
  (∀ i j a b, i < j → l !! i = Some a → l !! j = Some b → R a b) →
  StronglySorted R l.
Proof.
  induction l as [|x l IH]; intros Hl; constructor.
  - apply IH. intros i j a b Hij Ha Hb. by apply (Hl (S i) (S j)); [lia|..].
  - apply Forall_forall. intros y [j Hj]%list_elem_of_lookup.
    by apply (Hl 0 (S j)); [lia|..].
Qed.

Section list_sort_facts.
Context {A K : Type} (lt : K → K → bool) (key : A → K).

Lemma insort_perm x l : insort lt key x l ≡ₚ x :: l.
Proof.
  induction l as [|y l IH]; simpl; [done|].
  destruct (lt (key x) (key y)); [done|].
  rewrite IH. apply Permutation_swap.
Qed.

Lemma fold_insort_perm l acc :
  fold_left (λ acc x, insort lt key x acc) l acc ≡ₚ l ++ acc.
Proof.
  revert acc. induction l as [|x l IH]; intros acc; simpl; [done|].
  rewrite IH, insort_perm. by rewrite Permutation_middle.
Qed.

Lemma sort_ascending_perm l : sort_ascending lt key l ≡ₚ l.
Proof. unfold sort_ascending. by rewrite fold_insort_perm, app_nil_r. Qed.

(** Sorting rearranges the list and nothing else. *)
Lemma list_sort_perm r l : list_sort lt key r l ≡ₚ l.
Proof.
  destruct r; simpl; [|apply sort_ascending_perm].
  rewrite reverse_Permutation. rewrite sort_ascending_perm.
  apply reverse_Permutation.
Qed.

Lemma length_list_sort r l : length (list_sort lt key r l) = length l.
Proof. apply Permutation_length, list_sort_perm. Qed.

(** The order facts need [<] to be a strict weak order on the keys that
    occur: asymmetric, and with [x < z] whenever [x < y] and not [z < y]. *)
Context (ok : K → Prop).
Hypothesis lt_asym : ∀ x y, lt x y = true → lt y x = false.
Hypothesis lt_neg_trans :
  ∀ x y z, ok z → lt x y = true → lt z y = false → lt x z = true.

Lemma insort_sorted before x l :
  Forall (λ y, ok (key y)) l →
  Forall (λ y, before y x) l →
  StronglySorted (ascending lt key before) l →
  StronglySorted (ascending lt key before) (insort lt key x l).
Proof.
  intros Hok Hbefore Hsorted.
  induction Hsorted as [|y l Hsorted IH Hy]; simpl.
  { repeat constructor. }
  apply Forall_cons in Hok as [_ Hok].
  apply Forall_cons in Hbefore as [Hyx Hbefore].
  destruct (lt (key x) (key y)) eqn:Hxy.
  - constructor; [by constructor|].
    constructor.
    + split; [by apply lt_asym | congruence].
    + rewrite Forall_forall in Hy, Hok |- *. intros z Hz.
      destruct (Hy z Hz) as [Hzy _].
      assert (lt (key x) (key z) = true) as Hxz by eauto.
      split; [by apply lt_asym | congruence].
  - constructor; [by apply IH|].
    rewrite insort_perm. constructor; [|done].
    split; [done | auto].
Qed.

Lemma fold_insort_sorted before l acc :
  Forall (λ y, ok (key y)) (acc ++ l) →
  StronglySorted (ascending lt key before) acc →
  StronglySorted before l →
  (∀ y x, y ∈ acc → x ∈ l → before y x) →
  StronglySorted (ascending lt key before)
    (fold_left (λ acc x, insort lt key x acc) l acc).
Proof.
  revert acc. induction l as [|x l IH]; intros acc Hok Hacc Hl Hal; simpl; [done|].
  apply StronglySorted_cons in Hl as [Hx Hl].
  apply Forall_app in Hok as [Hok1 Hok2].
  apply Forall_cons in Hok2 as [Hokx Hok2].
  apply IH; [| |done|].
  - apply Forall_app. split; [|done]. rewrite insort_perm. by constructor.
  - apply insort_sorted; [done| |done].
    apply Forall_forall. intros y Hy. apply Hal; [done | left].
  - intros y z Hy Hz. rewrite insort_perm in Hy.
    apply elem_of_cons in Hy as [->|Hy].
    + rewrite Forall_forall in Hx. auto.
    + apply Hal; [done | by right].
Qed.

Lemma sort_ascending_sorted before l :
  Forall (λ y, ok (key y)) l →
  StronglySorted before l →
  StronglySorted (ascending lt key before) (sort_ascending lt key l).
Proof.
  intros Hok Hl. apply fold_insort_sorted; [done|constructor|done|].
  intros y x Hy. by apply not_elem_of_nil in Hy.
Qed.

(** [l.sort(key=key, reverse=True)]: downwards, equal keys in their
    original order. *)
Lemma list_sort_reverse_sorted before l :
  Forall (λ y, ok (key y)) l →
  StronglySorted before l →
  StronglySorted (descending lt key before) (list_sort lt key true l).
Proof.
  intros Hok Hl. simpl.
  apply (StronglySorted_reverse (ascending lt key (flip before))).
  apply sort_ascending_sorted.
  - by apply Forall_reverse.
  - by apply StronglySorted_reverse.
Qed.

(** That is all a stable sort may return: a rearrangement of [l] that goes
    downwards and keeps equal keys in their original order is this list. *)
Lemma list_sort_reverse_unique before l l' :
  (∀ x y, before x y → before y x → False) →
  Forall (λ y, ok (key y)) l →
  StronglySorted before l →
  l' ≡ₚ l →
  StronglySorted (descending lt key before) l' →
  l' = list_sort lt key true l.
Proof.
  intros Hasym Hok Hl Hperm Hl'.
  apply (StronglySorted_unique_strong (descending lt key before));
    [|done|by apply list_sort_reverse_sorted|by rewrite list_sort_perm].
  intros x y _ _ [Hxy Hx] [Hyx Hy]. destruct (Hasym x y); auto.
Qed.
End list_sort_facts.

(** ** Comparisons of binary64 numbers *)

Ltac sf_cases x y :=
  let sx := fresh "sx" in let sy := fresh "sy" in
  let mx := fresh "mx" in let my := fresh "my" in
  let ex := fresh "ex" in let ey := fresh "ey" in
  destruct x as [sx|sx| |sx mx ex], y as [sy|sy| |sy my ey]; simpl;
  repeat match goal with s : bool |- _ => destruct s end; simpl;
  try (destruct (Z.compare_spec ex ey); subst;
       rewrite ?Pos.compare_cont_spec; simpl;
       try destruct (Pos.compare_spec mx my); simpl);
  (split; [first [done | intros _; lia] | first [done | lia]]).

Lemma SFltb_rank x y :
  SFltb x y = true ↔
  sf_nan x = false ∧ sf_nan y = false ∧ rank_lt (sf_rank x) (sf_rank y).
Proof. unfold SFltb, rank_lt. sf_cases x y. Qed.

Lemma SFeqb_rank x y :
  SFeqb x y = true ↔
  sf_nan x = false ∧ sf_nan y = false ∧ rank_eq (sf_rank x) (sf_rank y).
Proof. unfold SFeqb, rank_eq. sf_cases x y. Qed.

Lemma SFleb_rank x y :
  SFleb x y = true ↔
  sf_nan x = false ∧ sf_nan y = false
  ∧ (rank_lt (sf_rank x) (sf_rank y) ∨ rank_eq (sf_rank x) (sf_rank y)).
Proof. unfold SFleb, rank_lt, rank_eq. sf_cases x y. Qed.

Lemma is_nan_rank x : is_nan x = false ↔ sf_nan (Prim2SF x) = false.
Proof.
  unfold is_nan. rewrite negb_false_iff, FloatAxioms.eqb_spec, SFeqb_rank.
  unfold rank_eq. split; [by intros (? & _) | by intros ?].
Qed.

Lemma ltb_rank x y :
  (x <? y)%float = true ↔
  is_nan x = false ∧ is_nan y = false
  ∧ rank_lt (sf_rank (Prim2SF x)) (sf_rank (Prim2SF y)).
Proof. by rewrite FloatAxioms.ltb_spec, SFltb_rank, !is_nan_rank. Qed.

Lemma leb_rank x y :
  (x <=? y)%float = true ↔
  is_nan x = false ∧ is_nan y = false
  ∧ (rank_lt (sf_rank (Prim2SF x)) (sf_rank (Prim2SF y))
     ∨ rank_eq (sf_rank (Prim2SF x)) (sf_rank (Prim2SF y))).
Proof. by rewrite FloatAxioms.leb_spec, SFleb_rank, !is_nan_rank. Qed.

Lemma eqb_rank x y :
  (x =? y)%float = true ↔
  is_nan x = false ∧ is_nan y = false
  ∧ rank_eq (sf_rank (Prim2SF x)) (sf_rank (Prim2SF y)).
Proof. by rewrite FloatAxioms.eqb_spec, SFeqb_rank, !is_nan_rank. Qed.

Lemma ltb_asym x y : (x <? y)%float = true → (y <? x)%float = false.
Proof.
  intros (Hx & Hy & Hlt)%ltb_rank. apply not_true_is_false.
  intros (_ & _ & Hlt')%ltb_rank.
  unfold rank_lt in *. lia.
Qed.

(** Away from NaN, [<] is a strict weak order. *)
Lemma ltb_neg_trans x y z :
  is_nan z = false →
  (x <? y)%float = true → (z <? y)%float = false → (x <? z)%float = true.
Proof.
  intros Hz (Hx & Hy & Hlt)%ltb_rank Hzy. apply ltb_rank.
  split_and!; [done..|].
  assert (¬ rank_lt (sf_rank (Prim2SF z)) (sf_rank (Prim2SF y))) as Hd.
  { intros Hd. by rewrite (proj2 (ltb_rank z y)) in Hzy. }
  unfold rank_lt in *. lia.
Qed.

Lemma ltb_false_leb x y :
  is_nan x = false → is_nan y = false →
  (x <? y)%float = false → (y <=? x)%float = true.
Proof.
  intros Hx Hy Hxy. apply leb_rank. split_and!; [done..|].
  assert (¬ rank_lt (sf_rank (Prim2SF x)) (sf_rank (Prim2SF y))) as Hd.
  { intros Hd. by rewrite (proj2 (ltb_rank x y)) in Hxy. }
  unfold rank_lt, rank_eq in *. lia.
Qed.

Lemma eqb_ltb_false x y : (x =? y)%float = true → (y <? x)%float = false.
Proof.
  intros (Hx & Hy & Heq)%eqb_rank. apply not_true_is_false.
  intros (_ & _ & Hlt')%ltb_rank. unfold rank_lt, rank_eq in *. lia.
Qed.

(** [x == 0] holds of the two zeros only. *)
Lemma eqb_zero (x : float) : (x =? 0)%float = true → x = 0%float ∨ x = (-0)%float.
Proof.
  rewrite FloatAxioms.eqb_spec.
  change (Prim2SF 0) with (S754_zero false). intros Hx.
  rewrite <-(SF2Prim_Prim2SF x).
  destruct (Prim2SF x) as [[]|[]| |[]]; try done; [by right | by left].
Qed.

(** ** Exact products and sums in binary64 *)

Local Open Scope Z_scope.

Lemma Prim2SF_one : Prim2SF 1 = S754_finite false 4503599627370496 (-52).
Proof. reflexivity. Qed.

Lemma bounded_inv m e :
  bounded prec emax m e = true →
  fexp prec emax (Z.pos (digits2_pos m) + e) = e ∧ e ≤ emax - prec.
Proof.
  unfold bounded, canonical_mantissa.
  intros [H1 H2]%andb_true_iff. split; [by apply Z.eqb_eq | by apply Z.leb_le].
Qed.

(** A mantissa already in canonical position is left as it is. *)
Lemma binary_round_aux_canonical s m e :
  fexp prec emax (Z.pos (digits2_pos m) + e) = e → e ≤ emax - prec →
  binary_round_aux prec emax s (Z.pos m) e loc_Exact = S754_finite s m e.
Proof.
  intros Hcan Hmax. unfold binary_round_aux, shr_fexp.
  cbn [Zdigits2 shr_record_of_loc]. rewrite Hcan, Z.sub_diag.
  cbn [shr shr_m round_nearest_even loc_of_shr_record shr_record_of_loc Zdigits2].
  rewrite Hcan, Z.sub_diag. cbn [shr shr_m].
  by rewrite (proj2 (Z.leb_le _ _) Hmax).
Qed.

Lemma SFmul_one x :
  valid_binary x = true →
  SF64mul x (S754_finite false 4503599627370496 (-52)) = x.
Proof.
  destruct x as [[]|[]| |s m e]; try done. simpl.
  intros [Hcan Hmax]%bounded_inv.
  rewrite xorb_false_r, Pos.mul_comm.
  unfold binary_round_aux, shr_fexp.
  change (Zdigits2 (Z.pos (4503599627370496 * m)))
    with (Z.pos (Nat.iter 52 Pos.succ (digits2_pos m))).
  assert (Z.pos (Nat.iter 52 Pos.succ (digits2_pos m)) = Z.pos (digits2_pos m) + 52)
    as -> by (simpl; lia).
  replace (Z.pos (digits2_pos m) + 52 + (e + -52)) with (Z.pos (digits2_pos m) + e)
    by lia.
  rewrite Hcan. replace (e - (e + -52)) with 52 by lia.
  change (shr (shr_record_of_loc (Z.pos (4503599627370496 * m)) loc_Exact)
            (e + -52) 52)
    with (Build_shr_record (Z.pos m) false false, e + -52 + 52).
  replace (e + -52 + 52) with e by lia.
  cbn [shr_m round_nearest_even loc_of_shr_record shr_record_of_loc Zdigits2].
  rewrite Hcan, Z.sub_diag.
  cbn [shr shr_m].
  by rewrite (proj2 (Z.leb_le _ _) Hmax).
Qed.

(** Multiplying by [1.0] changes no binary64 number. *)
Lemma mul_one (x : float) : (x * 1)%float = x.
Proof.
  apply Prim2SF_inj. rewrite FloatAxioms.mul_spec, Prim2SF_one.
  apply SFmul_one, Prim2SF_valid.
Qed.

Lemma SFmul_comm x y : SF64mul x y = SF64mul y x.
Proof.
  destruct x as [sx|sx| |sx mx ex], y as [sy|sy| |sy my ey]; simpl;
    rewrite ?(xorb_comm sx sy); try done.
  by rewrite (Pos.mul_comm mx my), (Z.add_comm ex ey).
Qed.

(** The product of binary64 does not depend on the order of its factors. *)
Lemma mul_comm (x y : float) : (x * y)%float = (y * x)%float.
Proof. apply Prim2SF_inj. rewrite !FloatAxioms.mul_spec. apply SFmul_comm. Qed.

Lemma iter_pos_nat {A} (f : A → A) p x :
  SpecFloat.iter_pos f p x = Nat.iter (Pos.to_nat p) f x.
Proof.
  revert x. induction p as [p IH|p IH|]; intros x; cbn [SpecFloat.iter_pos]; [| |done].
  - rewrite !IH, Pos2Nat.inj_xI, Nat.iter_succ_r.
    replace (2 * Pos.to_nat p)%nat with (Pos.to_nat p + Pos.to_nat p)%nat by lia.
    by rewrite Nat.iter_add.
  - rewrite !IH, Pos2Nat.inj_xO.
    replace (2 * Pos.to_nat p)%nat with (Pos.to_nat p + Pos.to_nat p)%nat by lia.
    by rewrite Nat.iter_add.
Qed.

Lemma pos_iter_nat {A} (f : A → A) p x :
  Pos.iter f x p = Nat.iter (Pos.to_nat p) f x.
Proof. apply Pos2Nat.inj_iter. Qed.

Lemma Zpos_iter_xO n m :
  Z.pos (Nat.iter n xO m) = Z.pos m * 2 ^ Z.of_nat n.
Proof.
  induction n as [|n IH]; [simpl; lia|].
  rewrite Nat2Z.inj_succ, Z.pow_succ_r by lia.
  simpl. rewrite Pos2Z.inj_xO, IH. lia.
Qed.

Lemma digits2_iter_xO n m :
  Z.pos (digits2_pos (Nat.iter n xO m)) = Z.pos (digits2_pos m) + Z.of_nat n.
Proof. induction n as [|n IH]; simpl; lia. Qed.

Lemma shr_1_iter n m :
  Nat.iter n shr_1 (Build_shr_record (Z.pos (Nat.iter n xO m)) false false)
  = Build_shr_record (Z.pos m) false false.
Proof.
  induction n as [|n IH]; [done|].
  rewrite Nat.iter_succ_r. simpl. apply IH.
Qed.

(** Shifting out zeros loses nothing. *)
Lemma shr_exact m n e :
  shr (Build_shr_record (Z.pos (Nat.iter n xO m)) false false) e (Z.of_nat n)
  = (Build_shr_record (Z.pos m) false false, e + Z.of_nat n).
Proof.
  destruct n as [|n]; [simpl; by rewrite Z.add_0_r|].
  change (Z.of_nat (S n)) with (Z.pos (Pos.of_succ_nat n)). cbn [shr].
  by rewrite iter_pos_nat, SuccNat2Pos.id_succ, shr_1_iter.
Qed.

Lemma shl_align_exact m e n :
  shl_align m e (e - Z.of_nat n) = (Nat.iter n xO m, e - Z.of_nat n).
Proof.
  unfold shl_align. replace (e - Z.of_nat n - e) with (- Z.of_nat n) by lia.
  destruct n as [|n]; [simpl; by rewrite Z.sub_0_r|].
  change (- Z.of_nat (S n)) with (Z.neg (Pos.of_succ_nat n)).
  cbv iota beta. by rewrite pos_iter_nat, SuccNat2Pos.id_succ.
Qed.

Lemma digits_pos k : (0 < digits k)%nat.
Proof. unfold digits. lia. Qed.

Lemma Zpos_digits k : Z.pos (digits2_pos k) = Z.of_nat (digits k).
Proof. unfold digits. lia. Qed.

Lemma digits_bound k n : Z.pos k < 2 ^ Z.of_nat n → (digits k ≤ n)%nat.
Proof.
  unfold digits. revert n.
  induction k as [k IH|k IH|]; intros n Hk; simpl.
  - destruct n as [|n]; [simpl in Hk; lia|].
    rewrite Nat2Z.inj_succ, Z.pow_succ_r in Hk by lia.
    specialize (IH n). lia.
  - destruct n as [|n]; [simpl in Hk; lia|].
    rewrite Nat2Z.inj_succ, Z.pow_succ_r in Hk by lia.
    specialize (IH n). lia.
  - destruct n as [|n]; [simpl in Hk; lia|]. lia.
Qed.

Lemma lt_pow_digits k : Z.pos k < 2 ^ Z.of_nat (digits k).
Proof.
  rewrite <-Zpos_digits.
  induction k as [p IH|p IH|]; simpl; [| |lia].
  - rewrite Pos2Z.inj_succ, Z.pow_succ_r by lia. lia.
  - rewrite Pos2Z.inj_succ, Z.pow_succ_r by lia. lia.
Qed.

Lemma sf_of_pos_canonical k :
  (digits k ≤ 53)%nat →
  fexp prec emax
    (Z.pos (digits2_pos (Nat.iter (53 - digits k) xO k)) + (Z.of_nat (digits k) - 53))
  = Z.of_nat (digits k) - 53.
Proof.
  intros Hk. rewrite digits2_iter_xO, Zpos_digits.
  unfold fexp, SpecFloat.emin, prec, emax. lia.
Qed.

(** The conversion of a whole number below [2^53] is exact. *)
Lemma binary_normalize_pos k :
  (digits k ≤ 53)%nat →
  binary_normalize prec emax (Z.pos k) 0 false = sf_of_pos k.
Proof.
  intros Hk. pose proof (digits_pos k).
  unfold binary_normalize, binary_round.
  replace (fexp prec emax (Z.pos (digits2_pos k) + 0))
    with (0 - Z.of_nat (53 - digits k)).
  2:{ rewrite Zpos_digits. unfold fexp, SpecFloat.emin, prec, emax. lia. }
  rewrite shl_align_exact.
  replace (0 - Z.of_nat (53 - digits k)) with (Z.of_nat (digits k) - 53) by lia.
  apply binary_round_aux_canonical; [by apply sf_of_pos_canonical|].
  unfold prec, emax. lia.
Qed.

Lemma to_Z_of_count n :
  Z.of_nat n < 2 ^ 53 → Uint63.to_Z (Uint63.of_Z (Z.of_nat n)) = Z.of_nat n.
Proof.
  intros Hn. rewrite Uint63.of_Z_spec. apply Z.mod_small.
  change Uint63.wB with (2 ^ 63). lia.
Qed.

Lemma Prim2SF_of_count n :
  (0 < n)%nat → Z.of_nat n < 2 ^ 53 →
  Prim2SF (np.of_count n) = sf_of_pos (Pos.of_nat n).
Proof.
  intros Hpos Hn. unfold np.of_count.
  rewrite of_uint63_spec, to_Z_of_count by done.
  replace (Z.of_nat n) with (Z.pos (Pos.of_nat n)) in * by lia.
  apply binary_normalize_pos. by apply (digits_bound _ 53).
Qed.

Lemma of_count_nonzero n :
  (0 < n)%nat → Z.of_nat n < 2 ^ 53 → (np.of_count n =? 0)%float = false.
Proof.
  intros Hpos Hn.
  by rewrite FloatAxioms.eqb_spec, Prim2SF_of_count.
Qed.

Lemma pos_iter_xO_add n a b :
  (Nat.iter n xO a + Nat.iter n xO b)%positive = Nat.iter n xO (a + b)%positive.
Proof. induction n as [|n IH]; [done|]. simpl. by rewrite <-IH. Qed.

Lemma digits_le a b : Z.pos a ≤ Z.pos b → (digits a ≤ digits b)%nat.
Proof.
  intros Hab. apply digits_bound. pose proof (lt_pow_digits b). lia.
Qed.

(** The sum of two whole numbers is exact while it stays below [2^53]. *)
Lemma SF64add_pos a b :
  (digits b ≤ digits a)%nat → (digits (a + b) ≤ 53)%nat →
  SF64add (sf_of_pos a) (sf_of_pos b) = sf_of_pos (a + b).
Proof.
  intros Hba Hab. pose proof (digits_pos a). pose proof (digits_pos b).
  assert (digits a ≤ digits (a + b))%nat as Hmono by (apply digits_le; lia).
  unfold SF64add, SFadd, sf_of_pos.
  replace (Z.min (Z.of_nat (digits a) - 53) (Z.of_nat (digits b) - 53))
    with (Z.of_nat (digits b) - 53) by lia.
  replace (Z.of_nat (digits b) - 53)
    with (Z.of_nat (digits a) - 53 - Z.of_nat (digits a - digits b)) at 1 by lia.
  rewrite shl_align_exact.
  replace (Z.of_nat (digits b) - 53)
    with (Z.of_nat (digits b) - 53 - Z.of_nat 0) at 2 by lia.
  rewrite shl_align_exact.
  cbn [fst cond_Zopp Nat.iter nat_rect].
  rewrite <-Nat.iter_add.
  replace (digits a - digits b + (53 - digits a))%nat with (53 - digits b)%nat by lia.
  rewrite <-Pos2Z.inj_add, pos_iter_xO_add.
  replace (Z.of_nat (digits a) - 53 - Z.of_nat (digits a - digits b))
    with (Z.of_nat (digits b) - 53) by lia.
  unfold binary_normalize, binary_round.
  replace (fexp prec emax
             (Z.pos (digits2_pos (Nat.iter (53 - digits b) xO (a + b)%positive))
              + (Z.of_nat (digits b) - 53)))
    with (Z.of_nat (digits (a + b)) - 53).
  2:{ rewrite digits2_iter_xO, Zpos_digits.
      unfold fexp, SpecFloat.emin, prec, emax. lia. }
  unfold shl_align.
  replace (Z.of_nat (digits (a + b)) - 53 - (Z.of_nat (digits b) - 53))
    with (Z.of_nat (digits (a + b) - digits b)) by lia.
  assert (∀ n m e e', match Z.of_nat n with
                      | Z.neg d => (Pos.iter xO m d, e)
                      | _ => (m, e')
                      end = (m, e')) as -> by (by intros [|?] ???).
  unfold binary_round_aux at 1. unfold shr_fexp at 1.
  cbn [Zdigits2 shr_record_of_loc].
  replace (fexp prec emax
             (Z.pos (digits2_pos (Nat.iter (53 - digits b) xO (a + b)%positive))
              + (Z.of_nat (digits b) - 53)) - (Z.of_nat (digits b) - 53))
    with (Z.of_nat (digits (a + b) - digits b)).
  2:{ rewrite digits2_iter_xO, Zpos_digits.
      unfold fexp, SpecFloat.emin, prec, emax. lia. }
  assert (Nat.iter (53 - digits b) xO (a + b)%positive
          = Nat.iter (digits (a + b) - digits b) xO
              (Nat.iter (53 - digits (a + b)) xO (a + b)%positive)) as ->.
  { rewrite <-Nat.iter_add. f_equal. lia. }
  rewrite shr_exact.
  cbn [shr_m round_nearest_even loc_of_shr_record].
  replace (Z.of_nat (digits b) - 53 + Z.of_nat (digits (a + b) - digits b))
    with (Z.of_nat (digits (a + b)) - 53) by lia.
  unfold shr_fexp. cbn [Zdigits2 shr_record_of_loc].
  rewrite sf_of_pos_canonical, Z.sub_diag by done. cbn [shr shr_m].
  assert ((Z.of_nat (digits (a + b)) - 53 <=? emax - prec) = true) as ->; [|done].
  apply Z.leb_le. unfold prec, emax. lia.
Qed.

Lemma SF64add_comm x y : SF64add x y = SF64add y x.
Proof.
  destruct x as [sx|sx| |sx mx ex], y as [sy|sy| |sy my ey]; simpl; try done.
  - by destruct sx, sy.
  - by destruct sx, sy.
  - unfold SF64add, SFadd. by rewrite Z.min_comm, Z.add_comm.
Qed.

(** Whole numbers add up exactly in binary64 while the sum is below [2^53]. *)
Lemma of_count_add n m :
  Z.of_nat (n + m) < 2 ^ 53 →
  (np.of_count n + np.of_count m)%float = np.of_count (n + m).
Proof.
  intros Hnm. apply Prim2SF_inj. rewrite FloatAxioms.add_spec.
  destruct n as [|n], m as [|m].
  - reflexivity.
  - change (np.of_count 0) with 0%float. simpl plus.
    rewrite Prim2SF_of_count by lia. reflexivity.
  - change (np.of_count 0) with 0%float. rewrite Nat.add_0_r.
    rewrite Prim2SF_of_count by lia. reflexivity.
  - rewrite !Prim2SF_of_count by lia.
    replace (Pos.of_nat (S n + S m)) with (Pos.of_nat (S n) + Pos.of_nat (S m))%positive
      by lia.
    destruct (decide (digits (Pos.of_nat (S m)) ≤ digits (Pos.of_nat (S n)))%nat).
    + apply SF64add_pos; [done|]. apply (digits_bound _ 53). lia.
    + rewrite SF64add_comm, Pos.add_comm.
      apply SF64add_pos; [lia|]. apply (digits_bound _ 53). lia.
Qed.

(** Adding to [+0.0] changes no number but [-0.0], which becomes [+0.0]. *)
Lemma zero_add (x : float) : (0 + x)%float = unsigned_zero x.
Proof.
  unfold unsigned_zero. rewrite FloatAxioms.eqb_spec.
  apply Prim2SF_inj. rewrite FloatAxioms.add_spec.
  change (Prim2SF 0) with (S754_zero false).
  destruct (Prim2SF x) as [[]|[]| |[] m e] eqn:Hx; simpl; by rewrite ?Hx.
Qed.

Local Close Scope Z_scope.

(** ** [embed_text] *)

(** The service is built with the configured dimension. *)
Lemma init_dimensions (settings : Settings) (c : client) :
  ∃ evs self,
    init settings c = (evs, Ok self)
    ∧ dimensions self = embedding_dimensions settings
    ∧ openai_embeddings self = c.
Proof. by eexists _, _. Qed.

(** Claim C4: for a text that is empty or made of whitespace only,
    [embed_text] returns the zero vector of the configured dimension (of
    length [max 0 D]); the embeddings client is not called, and the one event
    is a record of level WARNING in the log: nothing is raised. *)
Theorem embed_text_blank (self : EmbeddingService) (text : str) :
  forallb isspace text = true →
  embed_text self text
  = ([empty_text_warning], Ok (replicate (Z.to_nat (dimensions self)) 0%float))
  ∧ Z.of_nat (length (replicate (Z.to_nat (dimensions self)) 0%float))
    = Z.max 0 (dimensions self)
  ∧ ∀ t, AembedQuery t ∉ (embed_text self text).1.
Proof.
  intros Hs.
  assert (embed_text self text
          = ([empty_text_warning], Ok (replicate (Z.to_nat (dimensions self)) 0%float)))
    as Heq.
  { unfold embed_text. rewrite (strip_blank _ Hs). by destruct (decide _). }
  split_and!; [done|rewrite length_replicate; lia|].
  intros t. rewrite Heq. simpl. by intros [=]%list_elem_of_singleton.
Qed.

Lemma embed_text_blank_witness :
  embed_text unreachable_service blank_text
  = ([empty_text_warning], Ok [0; 0; 0]%float)
  ∧ Z.of_nat (length [0; 0; 0]%float) = Z.max 0 3
  ∧ ∀ t, AembedQuery t ∉ (embed_text unreachable_service blank_text).1.
Proof. apply (embed_text_blank unreachable_service blank_text). reflexivity. Defined.

(** Property X2: any other text goes to the client, once: [embed_text]
    returns the client's vector after a DEBUG record, or logs an ERROR record
    with the exception's message and raises the same exception again. *)
Theorem embed_text_nonblank (self : EmbeddingService) (text : str) :
  forallb isspace text = false →
  match openai_embeddings self text with
  | Ok embedding =>
      embed_text self text
      = ([AembedQuery text;
          Log DEBUG (lit "Generated embedding for text: " ++ slice_to text 50
                     ++ lit "...")],
         Ok embedding)
  | Raise e =>
      embed_text self text
      = ([AembedQuery text;
          Log ERROR (lit "Error generating embedding: " ++ str_of_exception e)],
         Raise e)
  end.
Proof.
  intros Hs. unfold embed_text.
  destruct (decide (strip text = [])) as [Hnil%strip_nil_inv|_]; [congruence|].
  unfold aembed_query. by destruct (openai_embeddings self text).
Qed.

Lemma embed_text_nonblank_witness :
  embed_text unreachable_service (lit "health check")
  = ([AembedQuery (lit "health check");
      Log ERROR (lit "Error generating embedding: Connection error.")],
     Raise (ClientError "APIConnectionError" (lit "Connection error."))).
Proof.
  apply (embed_text_nonblank unreachable_service (lit "health check")).
  reflexivity.
Defined.

(** ** [health_check] *)

(** Claim C10: whatever the test call to the client does, [health_check]
    returns a dictionary and raises nothing: with status "healthy", the model
    name, the dimensions and the length of the test vector when the call
    returns, and with status "unhealthy", the message of the exception, the
    model name and the dimensions when it raises. *)
Theorem health_check_total (settings : Settings) (self : EmbeddingService) :
  (∀ e, (health_check settings self).2 ≠ Raise e)
  ∧ match openai_embeddings self (lit "health check") with
    | Ok test_embedding =>
        (health_check settings self).2
        = Ok (<["status" := PyStr (lit "healthy")]>
              (<["model" := PyStr (openai_model settings)]>
              (<["dimensions" := PyInt (dimensions self)]>
              (<["test_embedding_length" :=
                   PyInt (Z.of_nat (length test_embedding))]> ∅))))
    | Raise e =>
        (health_check settings self).2
        = Ok (<["status" := PyStr (lit "unhealthy")]>
              (<["error" := PyStr (str_of_exception e)]>
              (<["model" := PyStr (openai_model settings)]>
              (<["dimensions" := PyInt (dimensions self)]> ∅))))
    end.
Proof.
  unfold health_check, embed_text.
  destruct (decide (strip (lit "health check") = [])) as [H|_]; [by vm_compute in H|].
  unfold aembed_query. by destruct (openai_embeddings self _).
Qed.

(** ** [cosine_similarity] *)

Lemma cosine_similarity_total (a b : list float) :
  length a = length b → ∃ s, cosine_similarity a b = Ok s.
Proof.
  intros Hl. unfold cosine_similarity, np.dot.
  destruct (decide _); [simpl|done].
  destruct (_ || _); eauto.
Qed.

(** Claim C2: for two vectors of one length, when the magnitude numpy
    computes for either of them compares equal to zero, [cosine_similarity]
    returns [0.0] and raises nothing. *)
Theorem cosine_similarity_zero_magnitude (a b : list float) :
  length a = length b →
  (np.linalg_norm a =? 0)%float = true ∨ (np.linalg_norm b =? 0)%float = true →
  cosine_similarity a b = Ok 0%float.
Proof.
  intros Hlen Hzero. unfold cosine_similarity, np.dot.
  destruct (decide _); [simpl|done].
  by destruct Hzero as [-> | ->]; rewrite ?orb_true_r.
Qed.

Lemma cosine_similarity_zero_magnitude_witness :
  cosine_similarity [0; 0]%float [1; 2]%float = Ok 0%float.
Proof.
  apply cosine_similarity_zero_magnitude; [reflexivity | left; reflexivity].
Defined.

(** A vector of zeros has magnitude zero, so every vector of its length has
    similarity [0.0] with it, NaN and infinite components included. *)
Lemma inner_zero_vector (a : list float) :
  Forall (λ x, (x =? 0)%float = true) a → np.inner a a = 0%float.
Proof.
  unfold np.inner. induction 1 as [|x a Hx _ IH]; [done|]. simpl.
  by destruct (eqb_zero x Hx) as [-> | ->].
Qed.

Lemma linalg_norm_zero_vector (a : list float) :
  Forall (λ x, (x =? 0)%float = true) a → (np.linalg_norm a =? 0)%float = true.
Proof. intros Ha. unfold np.linalg_norm. by rewrite inner_zero_vector. Qed.

(** Property X5: a vector of zeros has similarity [0.0] with every vector
    of its length, on either side. *)
Lemma cosine_similarity_zero_vector (a b : list float) :
  length a = length b →
  Forall (λ x, (x =? 0)%float = true) b →
  cosine_similarity a b = Ok 0%float ∧ cosine_similarity b a = Ok 0%float.
Proof.
  intros Hlen Hb%linalg_norm_zero_vector. unfold cosine_similarity, np.dot.
  destruct (decide (length a = length b)), (decide (length b = length a));
    try done. simpl.
  by rewrite Hb, orb_true_r.
Qed.

Lemma cosine_similarity_zero_vector_witness :
  cosine_similarity [nan; infinity]%float [0; -0]%float = Ok 0%float
  ∧ cosine_similarity [0; -0]%float [nan; infinity]%float = Ok 0%float.
Proof.
  apply (cosine_similarity_zero_vector [nan; infinity]%float [0; -0]%float).
  - reflexivity.
  - repeat constructor.
Defined.

(** Claim C7: for two vectors of different lengths [cosine_similarity] raises
    the [ValueError] of [np.dot], whose message names the two shapes, and
    returns no value; so it returns a value only for equal lengths. *)
Theorem cosine_similarity_dimension_mismatch (a b : list float) :
  length a ≠ length b →
  cosine_similarity a b
  = Raise (ValueError (np.not_aligned (length a) (length b)))
  ∧ ∀ v, cosine_similarity a b ≠ Ok v.
Proof.
  intros Hlen. unfold cosine_similarity, np.dot.
  by destruct (decide _).
Qed.

Lemma cosine_similarity_dimension_mismatch_witness :
  cosine_similarity [0]%float [1; 2]%float
  = Raise (ValueError (np.not_aligned 1 2))
  ∧ ∀ v, cosine_similarity [0]%float [1; 2]%float ≠ Ok v.
Proof.
  apply (cosine_similarity_dimension_mismatch [0]%float [1; 2]%float).
  simpl. lia.
Defined.

(** For equal lengths it does return: the two cases are all there is. *)
Lemma cosine_similarity_Ok_iff (a b : list float) :
  (∃ v, cosine_similarity a b = Ok v) ↔ length a = length b.
Proof.
  split; [|apply cosine_similarity_total].
  intros [v Hv]. unfold cosine_similarity, np.dot in Hv.
  by destruct (decide (length a = length b)).
Qed.

Lemma fold_inner_comm (a b : list float) acc :
  fold_left (λ acc xy, acc + xy.1 * xy.2)%float (zip a b) acc
  = fold_left (λ acc xy, acc + xy.1 * xy.2)%float (zip b a) acc.
Proof.
  revert b acc. induction a as [|x a IH]; intros [|y b] acc; simpl; try done.
  by rewrite IH, (mul_comm x y).
Qed.

Lemma inner_comm (a b : list float) : np.inner a b = np.inner b a.
Proof. apply fold_inner_comm. Qed.

(** Property X1: for two vectors of one length the score does not depend on
    their order, bit for bit. *)
Theorem cosine_similarity_symmetric (a b : list float) :
  length a = length b → cosine_similarity a b = cosine_similarity b a.
Proof.
  intros Hlen. unfold cosine_similarity, np.dot.
  destruct (decide (length a = length b)), (decide (length b = length a));
    try done; try congruence. simpl.
  by rewrite orb_comm, inner_comm, (mul_comm (np.linalg_norm a)).
Qed.

Lemma cosine_similarity_symmetric_witness :
  cosine_similarity [3; 4]%float [1; 0]%float
  = cosine_similarity [1; 0]%float [3; 4]%float.
Proof. apply cosine_similarity_symmetric. reflexivity. Defined.

(** Claim C8, at two inputs: the squares of [2^600] overflow and the score
    is NaN; the square of [1.25 * 2^-536] is rounded among the subnormal
    numbers and the score is above [1.02]. Both magnitudes are non-zero in
    each case, and neither score lies in [[-1, 1]]. *)
Theorem cosine_similarity_out_of_range :
  (np.linalg_norm [0x1p600]%float =? 0)%float = false
  ∧ cosine_similarity [0x1p600]%float [0x1p600]%float = Ok nan
  ∧ ((-1 <=? nan) && (nan <=? 1))%float = false
  ∧ (np.linalg_norm [0x1.4p-536]%float =? 0)%float = false
  ∧ (np.linalg_norm [1]%float =? 0)%float = false
  ∧ cosine_similarity [0x1.4p-536]%float [1]%float = Ok 0x1.0547666079ba7p+0%float
  ∧ (0x1.0547666079ba7p+0 <=? 1)%float = false.
Proof. by vm_compute. Qed.

(** ** [semantic_search] *)

(** The list of similarities holds, in order, each candidate's index with its
    score. *)
Lemma similarities_lookup q cands sims :
  similarities q cands = Ok sims →
  length sims = length cands
  ∧ ∀ p i s, sims !! p = Some (i, s) →
      i = p ∧ ∃ c, cands !! p = Some c ∧ cosine_similarity q c = Ok s.
Proof.
  unfold similarities, enumerate. intros Hall%result_mapM_Ok. split.
  - apply Forall2_length in Hall. by rewrite length_imap in Hall.
  - intros p i s Hp.
    destruct (Forall2_lookup_r _ _ _ _ _ Hall Hp) as ([i' c'] & Hic & Hcos).
    apply list_lookup_imap_Some in Hic as (c & Hc & [= -> ->]).
    simpl in Hcos. apply result_bind_Ok in Hcos as (s' & Hs & [= <- <-]).
    eauto.
Qed.

(** The loop raises only on a candidate of another length than the query. *)
Lemma similarities_total q cands :
  Forall (λ c, length c = length q) cands → ∃ sims, similarities q cands = Ok sims.
Proof.
  intros Hdim. apply result_mapM_total.
  apply Forall_forall. intros [i c] Hic.
  apply list_elem_of_lookup in Hic as [p Hp].
  apply list_lookup_imap_Some in Hp as (c' & Hc & [= -> ->]).
  rewrite Forall_forall in Hdim.
  destruct (cosine_similarity_total q c') as [s Hs].
  { symmetry. apply Hdim. by eapply list_elem_of_lookup_2. }
  exists (p, s). simpl. by rewrite Hs.
Qed.

Lemma similarities_fst q cands sims :
  similarities q cands = Ok sims → sims.*1 = seq 0 (length cands).
Proof.
  intros [Hlen Hlook]%similarities_lookup.
  apply list_eq. intros p. rewrite list_lookup_fmap.
  destruct (sims !! p) as [[i s]|] eqn:Hp; simpl.
  - destruct (Hlook _ _ _ Hp) as [-> _].
    apply lookup_lt_Some in Hp. by rewrite lookup_seq_lt by lia.
  - apply lookup_ge_None in Hp. by rewrite lookup_seq_ge by lia.
Qed.

Lemma similarities_lookup_candidate q cands sims p c t :
  similarities q cands = Ok sims →
  cands !! p = Some c → cosine_similarity q c = Ok t → sims !! p = Some (p, t).
Proof.
  intros [Hlen Hlook]%similarities_lookup Hc Ht.
  destruct (lookup_lt_is_Some_2 sims p) as [[i s] Hp].
  { rewrite Hlen. by eapply lookup_lt_Some. }
  destruct (Hlook _ _ _ Hp) as (-> & c' & Hc' & Hs). congruence.
Qed.

(** Claim C1, for [top_k >= 0] and candidates of the query's length:
    [semantic_search] returns a list of [min(top_k, number of candidates)]
    pairs, each a candidate's index with its score, no index twice. When the
    scores are numbers, a pair that stands before another has a score at
    least as high, and the smaller index when the scores are equal; and a
    candidate left out has no higher score than a pair returned, and the
    greater index when the scores are equal. An empty candidate list gives
    the empty list. *)
Theorem semantic_search_ranked (q : list float) (cands : list (list float)) (k : Z) :
  (0 ≤ k)%Z →
  Forall (λ c, length c = length q) cands →
  ∃ res,
    semantic_search q cands k = Ok res
    ∧ Z.of_nat (length res) = Z.min k (Z.of_nat (length cands))
    ∧ NoDup (res.*1)
    ∧ (∀ i s, (i, s) ∈ res →
         ∃ c, cands !! i = Some c ∧ cosine_similarity q c = Ok s)
    ∧ ((∀ c s, c ∈ cands → cosine_similarity q c = Ok s → is_nan s = false) →
       (∀ p p' i s j t,
          p < p' → res !! p = Some (i, s) → res !! p' = Some (j, t) →
          (t <=? s)%float = true ∧ ((s =? t)%float = true → i < j))
       ∧ (∀ i s j c t,
            (i, s) ∈ res →
            cands !! j = Some c → cosine_similarity q c = Ok t → (j, t) ∉ res →
            (t <=? s)%float = true ∧ ((s =? t)%float = true → i < j)))
    ∧ semantic_search q [] k = Ok [].
Proof.
  intros Hk Hdim.
  destruct (similarities_total q cands Hdim) as [sims Hsims].
  destruct (similarities_lookup _ _ _ Hsims) as [Hlen Hlook].
  set (sorted := list_sort PrimFloat.ltb snd true sims).
  assert (semantic_search q cands k = Ok (slice_to sorted k)) as Hres.
  { unfold semantic_search. destruct cands as [|c cands'].
    - destruct sims; [|done]. subst sorted.
      change (list_sort PrimFloat.ltb snd true []) with (@nil (nat * float)).
      unfold slice_to. by destruct (k <? 0)%Z; rewrite take_nil.
    - by rewrite Hsims. }
  assert (∀ i s, (i, s) ∈ sims →
            ∃ c, cands !! i = Some c ∧ cosine_similarity q c = Ok s) as Hmem.
  { intros i s [p Hp]%list_elem_of_lookup.
    destruct (Hlook _ _ _ Hp) as [-> ?]. done. }
  assert (sorted ≡ₚ sims) as Hperm by apply list_sort_perm.
  exists (slice_to sorted k). rewrite slice_to_nonneg in * by done.
  split_and!; [done|..|done].
  - rewrite length_take, (Permutation_length Hperm), Hlen. lia.
  - apply (sublist_NoDup _ (sorted.*1)).
    + rewrite Hperm, (similarities_fst _ _ _ Hsims). apply NoDup_seq.
    + rewrite fmap_take. apply sublist_take.
  - intros i s (p & Hp & _)%elem_of_take. apply Hmem. rewrite <-Hperm.
    by eapply list_elem_of_lookup_2.
  - intros Hnan.
    assert (∀ i s, (i, s) ∈ sorted → is_nan s = false) as Hnum.
    { intros i s His. rewrite Hperm in His.
      destruct (Hmem _ _ His) as (c & Hc & Hs).
      eapply Hnan; [|done]. by eapply list_elem_of_lookup_2. }
    assert (StronglySorted (descending PrimFloat.ltb snd (λ a b, a.1 < b.1)) sorted)
      as Hsorted.
    { apply (list_sort_reverse_sorted _ _ (λ s, is_nan s = false)).
      - apply ltb_asym.
      - intros x y z. apply ltb_neg_trans.
      - apply Forall_forall. intros [i s] His. apply (Hnum i). by rewrite Hperm.
      - apply StronglySorted_of_lookup. intros p p' [i s] [j t] Hpp Hp Hp'.
        destruct (Hlook _ _ _ Hp) as [-> _], (Hlook _ _ _ Hp') as [-> _]. done. }
    split.
    + intros p p' i s j t Hpp Hp Hp'.
      apply lookup_take_Some in Hp as [Hp _], Hp' as [Hp' _].
      destruct (StronglySorted_lookup _ _ _ _ _ _ Hsorted Hpp Hp Hp') as [Hst Htie].
      apply list_elem_of_lookup_2 in Hp, Hp'. simpl in *.
      split; [apply ltb_false_leb; eauto|].
      intros Heq. apply Htie. by apply eqb_ltb_false.
    + intros i s j c t His Hc Ht Hout.
      assert ((j, t) ∈ drop (Z.to_nat k) sorted) as Hdrop.
      { assert ((j, t) ∈ sorted) as Hjt.
        { rewrite Hperm. eapply list_elem_of_lookup_2.
          by eapply similarities_lookup_candidate. }
        rewrite <-(take_drop (Z.to_nat k) sorted), elem_of_app in Hjt.
        by destruct Hjt. }
      rewrite <-(take_drop (Z.to_nat k) sorted) in Hsorted.
      destruct (StronglySorted_app_1_elem_of _ _ _ _ _ Hsorted His Hdrop) as [Hst Htie].
      simpl in Hst, Htie.
      assert (is_nan s = false) as Hs.
      { apply (Hnum i). rewrite <-(take_drop (Z.to_nat k) sorted), elem_of_app. auto. }
      assert (is_nan t = false) as Ht'.
      { apply (Hnum j). rewrite <-(take_drop (Z.to_nat k) sorted), elem_of_app. auto. }
      split; [by apply ltb_false_leb|].
      intros Heq. apply Htie. by apply eqb_ltb_false.
Qed.

Lemma sample_scores_are_numbers c s :
  c ∈ sample_candidates → cosine_similarity sample_query c = Ok s →
  is_nan s = false.
Proof.
  unfold sample_candidates. intros Hc Hs.
  repeat (apply elem_of_cons in Hc as [->|Hc]);
    [vm_compute in Hs; injection Hs as <-; reflexivity ..|].
  by apply elem_of_nil in Hc.
Qed.

Lemma semantic_search_ranked_witness :
  ∃ res,
    semantic_search sample_query sample_candidates 2 = Ok res
    ∧ Z.of_nat (length res) = Z.min 2 (Z.of_nat (length sample_candidates))
    ∧ NoDup (res.*1)
    ∧ (∀ p p' i s j t,
         p < p' → res !! p = Some (i, s) → res !! p' = Some (j, t) →
         (t <=? s)%float = true ∧ ((s =? t)%float = true → i < j))
    ∧ (∀ i s j c t,
         (i, s) ∈ res →
         sample_candidates !! j = Some c → cosine_similarity sample_query c = Ok t →
         (j, t) ∉ res →
         (t <=? s)%float = true ∧ ((s =? t)%float = true → i < j)).
Proof.
  destruct (semantic_search_ranked sample_query sample_candidates 2)
    as (res & Hres & Hlen & Hdup & _ & Hsorted & _).
  - lia.
  - repeat constructor.
  - destruct (Hsorted sample_scores_are_numbers) as [Horder Hcut].
    exists res. by split_and!.
Defined.

(** The ranking of the sample, in full. *)
Lemma semantic_search_sample :
  semantic_search sample_query sample_candidates default_top_k
  = Ok [(0, 1%float); (2, 1%float); (1, 0%float); (3, (-1)%float)].
Proof. reflexivity. Qed.

(** Claim C1 as it is worded, at two inputs with [k >= 1]. A candidate that
    cannot be scored is not skipped: with the query [[1.0, 0.0]], the
    candidates [[]], a candidate without components, and [[1.0, 0.0]], and
    [k = 5], the search raises the [ValueError] of [np.dot]; it returns no
    list of the one candidate that can be scored. And scores need not be
    ordered: with the query [[2^600]], the candidates [[2^600]] and [[1.0]]
    and [k = 2] the scores are NaN and [0.0], neither of which is at most the
    other, so no list of the two is sorted by descending score. *)
Lemma semantic_search_unranked :
  semantic_search [1; 0]%float [[]; [1; 0]]%float 5
  = Raise (ValueError (np.not_aligned 2 0))
  ∧ cosine_similarity [1; 0]%float [1; 0]%float = Ok 1%float
  ∧ semantic_search [0x1p600]%float [[0x1p600]; [1]]%float 2
    = Ok [(0, nan); (1, 0%float)]
  ∧ (0 <=? nan)%float = false
  ∧ (nan <=? 0)%float = false.
Proof. by vm_compute. Qed.

(** Claim C6, as the code has it: for [top_k < 1] nothing is raised. With
    candidates of the query's length the search returns the empty list for
    [top_k = 0] and, for [top_k < 0], the full ranking without its last
    [-top_k] entries. *)
Theorem semantic_search_k_below_one (q : list float) (cands : list (list float)) (k : Z) :
  (k < 1)%Z →
  Forall (λ c, length c = length q) cands →
  ∃ full,
    semantic_search q cands (Z.of_nat (length cands)) = Ok full
    ∧ length full = length cands
    ∧ semantic_search q cands k
      = Ok (if (k =? 0)%Z then []
            else take (Z.to_nat (Z.of_nat (length cands) + k)) full).
Proof.
  intros Hk Hdim.
  destruct (similarities_total q cands Hdim) as [sims Hsims].
  destruct (similarities_lookup _ _ _ Hsims) as [Hlen _].
  destruct cands as [|c cands'].
  { exists []. simpl. split_and!; [done..|].
    by destruct (k =? 0)%Z; rewrite ?take_nil. }
  unfold semantic_search. rewrite Hsims. simpl in *.
  set (sorted := reverse _).
  assert (length sorted = S (length cands')) as Hsorted.
  { rewrite <-Hlen. apply (length_list_sort PrimFloat.ltb snd true). }
  exists sorted. split_and!; [|done|].
  - unfold slice_to. rewrite Hsorted.
    destruct (Z.ltb_spec (Z.of_nat (S (length cands'))) 0); [lia|].
    rewrite Nat2Z.id, <-Hsorted. by rewrite firstn_all.
  - unfold slice_to. rewrite Hsorted.
    destruct (Z.ltb_spec k 0), (Z.eqb_spec k 0); try lia; [done|].
    by subst k.
Qed.

Lemma semantic_search_k_below_one_witness :
  ∃ full,
    semantic_search sample_query sample_candidates
      (Z.of_nat (length sample_candidates)) = Ok full
    ∧ length full = length sample_candidates
    ∧ semantic_search sample_query sample_candidates (-1)
      = Ok (if (-1 =? 0)%Z then []
            else take (Z.to_nat (Z.of_nat (length sample_candidates) + -1)) full).
Proof.
  apply (semantic_search_k_below_one sample_query sample_candidates (-1)).
  - lia.
  - repeat constructor.
Defined.

(** Claim C6 as it is worded, at [top_k = 0] and [top_k = -1]: the search
    returns a list, it does not fail. *)
Lemma semantic_search_k_below_one_returns :
  semantic_search sample_query sample_candidates 0 = Ok []
  ∧ semantic_search sample_query sample_candidates (-1)
    = Ok [(0, 1%float); (2, 1%float); (1, 0%float)].
Proof. split; reflexivity. Qed.

(** ** [combine_embeddings] *)

(** Claim C3, as the code has it: for the empty list of vectors
    [combine_embeddings] returns the empty vector, whatever the weights. *)
Theorem combine_embeddings_empty (weights : option (list float)) :
  combine_embeddings [] weights = Ok [].
Proof. reflexivity. Qed.

(** Claim C3 as it is worded: no error is raised for the empty list. *)
Lemma combine_embeddings_empty_no_error :
  ¬ ∃ e, combine_embeddings [] None = Raise e.
Proof. by intros [e ?]. Qed.

Lemma array2_rectangular d rows :
  Forall (λ r, length r = d) rows → np.array2 rows = Ok rows.
Proof.
  destruct 1 as [|r rs Hr Hrs]; simpl; [done|].
  assert (forallb (λ r', length r' =? length r) rs = true) as ->; [|done].
  apply forallb_forall. intros r' Hr'%list_elem_of_In.
  rewrite Forall_forall in Hrs. apply Nat.eqb_eq. rewrite Hr. auto.
Qed.

(** Equal whole numbers added in order. *)
Lemma fold_add_count m a k :
  (Z.of_nat (a + m * k) < 2 ^ 53)%Z →
  fold_left PrimFloat.add (replicate m (np.of_count k)) (np.of_count a)
  = np.of_count (a + m * k).
Proof.
  revert a. induction m as [|m IH]; intros a Ham; simpl.
  { by rewrite Nat.add_0_r. }
  rewrite of_count_add by lia. rewrite IH by lia. f_equal. lia.
Qed.

Lemma unrolled_replicate b j m k :
  8 * b ≤ m → (Z.of_nat ((j + b) * k) < 2 ^ 53)%Z →
  np.unrolled b (replicate 8 (np.of_count (j * k))) (replicate m (np.of_count k))
  = (replicate 8 (np.of_count ((j + b) * k)), replicate (m - 8 * b) (np.of_count k)).
Proof.
  revert j m. induction b as [|b IH]; intros j m Hm Hb.
  { simpl. by rewrite Nat.add_0_r, Nat.sub_0_r. }
  cbn [np.unrolled]. rewrite take_replicate, drop_replicate.
  replace (8 `min` m) with 8 by lia.
  assert (zip_with PrimFloat.add (replicate 8 (np.of_count (j * k)))
            (replicate 8 (np.of_count k))
          = replicate 8 (np.of_count (S j * k))) as ->.
  { cbn [replicate zip_with]. rewrite of_count_add by nia.
    by replace (j * k + k) with (S j * k) by lia. }
  rewrite IH by nia. f_equal; [|f_equal; lia]. do 2 f_equal. lia.
Qed.

Lemma tree8_replicate t :
  (Z.of_nat (8 * t) < 2 ^ 53)%Z →
  np.tree8 (replicate 8 (np.of_count t)) = np.of_count (8 * t).
Proof.
  intros Ht. cbn [replicate np.tree8].
  rewrite !of_count_add by lia. f_equal. lia.
Qed.

Lemma block_sum_replicate n k :
  8 ≤ n → (Z.of_nat (n * k) < 2 ^ 53)%Z →
  np.block_sum (replicate n (np.of_count k)) = np.of_count (n * k).
Proof.
  intros Hn Hnk. unfold np.block_sum.
  rewrite length_replicate, take_replicate, drop_replicate.
  replace (8 `min` n) with 8 by lia.
  pose proof (Nat.div_mod_eq n 8) as Hdiv.
  pose proof (Nat.mod_upper_bound n 8 ltac:(lia)) as Hmod.
  destruct (n / 8) as [|b] eqn:Hb; [lia|]. clear Hb.
  generalize dependent (n mod 8). intros r -> Hr.
  replace (S b - 1) with b by lia.
  replace (8 * S b + r - 8) with (8 * b + r) in * by lia.
  replace (np.of_count k) with (np.of_count (1 * k)) at 1 by (f_equal; lia).
  assert (Z.of_nat (8 * (S b * k) + r * k) < 2 ^ 53)%Z as Hbound.
  { replace (8 * (S b * k) + r * k) with ((8 * S b + r) * k) by lia. done. }
  rewrite unrolled_replicate; [|lia|].
  2:{ replace (1 + b) with (S b) by lia. nia. }
  replace (1 + b) with (S b) by lia.
  replace (8 * b + r - 8 * b) with r by lia.
  rewrite tree8_replicate by lia. rewrite fold_add_count by done.
  f_equal. lia.
Qed.

Lemma pairwise_sum_replicate depth n k :
  8 ≤ n → (Z.of_nat (n * k) < 2 ^ 53)%Z →
  np.pairwise_sum depth (replicate n (np.of_count k)) = np.of_count (n * k).
Proof.
  revert n. induction depth as [|depth IH]; intros n Hn Hnk; cbn [np.pairwise_sum].
  { by apply block_sum_replicate. }
  rewrite length_replicate. destruct (Nat.leb_spec n 128) as [Hle|Hgt].
  { by apply block_sum_replicate. }
  pose proof (Nat.div_mod_eq n 2) as Hn2.
  pose proof (Nat.mod_upper_bound n 2 ltac:(lia)) as Hr2.
  pose proof (Nat.div_mod_eq (n / 2) 8) as Hn8.
  pose proof (Nat.mod_upper_bound (n / 2) 8 ltac:(lia)) as Hr8.
  assert (∃ n2, n / 2 - (n / 2) mod 8 = n2 ∧ 8 ≤ n2 ∧ n2 + 8 ≤ n)
    as (n2 & -> & Hn2' & Hn2'') by (eexists; split; [done | lia]).
  clear Hn2 Hr2 Hn8 Hr8.
  rewrite take_replicate, drop_replicate.
  replace (n2 `min` n) with n2 by lia.
  assert (∃ m, n = n2 + m ∧ 8 ≤ m) as (m & -> & Hm) by (exists (n - n2); lia).
  replace (n2 + m - n2) with m by lia.
  assert (Z.of_nat (n2 * k + m * k) < 2 ^ 53)%Z as Hbound.
  { replace (n2 * k + m * k) with ((n2 + m) * k) by lia. done. }
  rewrite !IH by lia. rewrite of_count_add by done. f_equal. lia.
Qed.

(** Equal whole numbers add up exactly, in the order of numpy too. *)
Lemma sum_replicate n k :
  (Z.of_nat (n * k) < 2 ^ 53)%Z →
  np.sum (replicate n (np.of_count k)) = np.of_count (n * k).
Proof.
  intros Hnk. unfold np.sum. rewrite length_replicate.
  change 0%float with (np.of_count 0).
  destruct (Nat.ltb_spec n 8).
  - by rewrite fold_add_count.
  - rewrite pairwise_sum_replicate by done. by rewrite of_count_add.
Qed.

(** [n] weights of [1.0] sum to [n], exactly. *)
Lemma sum_ones n :
  (Z.of_nat n < 2 ^ 53)%Z → np.sum (replicate n 1%float) = np.of_count n.
Proof.
  intros Hlt. change 1%float with (np.of_count 1).
  rewrite sum_replicate by lia. f_equal. lia.
Qed.

(** Weights of [0.0] sum to [0.0]. *)
Lemma sum_zeros n : np.sum (replicate n 0%float) = 0%float.
Proof.
  change 0%float with (np.of_count 0). rewrite sum_replicate.
  - by rewrite Nat.mul_0_r.
  - rewrite Nat.mul_0_r. done.
Qed.

(** The depth given to [np.pairwise_sum] does not matter once it is the
    number of items or more: the recursion stops before it is used up. *)
Lemma pairwise_sum_depth d d' a :
  length a ≤ 128 + d → length a ≤ 128 + d' →
  np.pairwise_sum d a = np.pairwise_sum d' a.
Proof.
  revert d' a. induction d as [|d IH]; intros d' a Hd Hd'.
  - destruct d'; cbn [np.pairwise_sum]; [done|].
    by rewrite (proj2 (Nat.leb_le _ _)) by lia.
  - cbn [np.pairwise_sum]. destruct (Nat.leb_spec (length a) 128) as [Hle|Hgt].
    + destruct d'; cbn [np.pairwise_sum]; [done|].
      by rewrite (proj2 (Nat.leb_le _ _)).
    + destruct d' as [|d']; [lia|]. cbn [np.pairwise_sum].
      rewrite (proj2 (Nat.leb_gt _ _)) by done.
      pose proof (Nat.div_mod_eq (length a) 2) as Hn2.
      pose proof (Nat.mod_upper_bound (length a) 2 ltac:(lia)) as Hr2.
      pose proof (Nat.div_mod_eq (length a / 2) 8) as Hn8.
      pose proof (Nat.mod_upper_bound (length a / 2) 8 ltac:(lia)) as Hr8.
      f_equal; apply IH; rewrite ?length_take, ?length_drop; lia.
Qed.

Lemma scale_rows_by_one (rows : list (list float)) :
  zip_with (λ row wi, (λ x, x * wi)%float <$> row) rows
    (replicate (length rows) 1%float) = rows.
Proof.
  induction rows as [|r rows IH]; simpl; [done|]. rewrite IH. f_equal.
  rewrite <-(list_fmap_id r) at 2. apply list_fmap_ext. intros _ x _. apply mul_one.
Qed.

(** Adding the rows up gives, in each place, the sum of that column. *)
Lemma fold_zip_with_add d rs r :
  length r = d → Forall (λ r', length r' = d) rs →
  fold_left (zip_with PrimFloat.add) rs r
  = (λ j, fold_left PrimFloat.add (column j rs) (nth j r 0%float)) <$> seq 0 d.
Proof.
  intros Hr Hrs. revert r Hr.
  induction Hrs as [|r' rs Hr' _ IH]; intros r Hr; simpl.
  - apply list_eq. intros j. rewrite list_lookup_fmap.
    destruct (decide (j < d)) as [Hj|Hj].
    + rewrite lookup_seq_lt by done. simpl.
      destruct (lookup_lt_is_Some_2 r j) as [x Hx]; [lia|].
      by rewrite (nth_lookup_Some _ _ _ _ Hx).
    + rewrite lookup_seq_ge, lookup_ge_None_2 by lia. done.
  - rewrite IH by (rewrite length_zip_with; lia).
    apply list_fmap_ext. intros i j [Hj Hi]%lookup_seq. simpl in Hj. subst j.
    simpl. f_equal.
    destruct (lookup_lt_is_Some_2 r i) as [x Hx]; [lia|].
    destruct (lookup_lt_is_Some_2 r' i) as [y Hy]; [lia|].
    rewrite (nth_lookup_Some _ _ _ _ Hx), (nth_lookup_Some _ _ _ _ Hy).
    apply nth_lookup_Some. by rewrite lookup_zip_with, Hx, Hy.
Qed.

(** Rows of one component, laid end to end, are their one column. *)
Lemma concat_column rows :
  Forall (λ r, length r = 1) rows → concat rows = column 0 rows.
Proof.
  induction 1 as [|r rows Hr _ IH]; [done|].
  destruct r as [|x [|??]]; try done. simpl. by rewrite IH.
Qed.

(** Where numpy adds in order, that is for rows of another length than one
    or fewer than eight rows, [a.sum(axis=0)] is the sum in order of each
    column. *)
Lemma sum_axis0_columns d rows :
  rows ≠ [] → Forall (λ r, length r = d) rows → d ≠ 1 ∨ length rows < 8 →
  np.sum_axis0 rows = (λ j, sum_in_order (column j rows)) <$> seq 0 d.
Proof.
  intros Hne Hd Hseq. destruct rows as [|r rs] eqn:He; [done|].
  assert (length r = d) as Hr by (by inversion Hd).
  rewrite <-He in *. unfold np.sum_axis0. rewrite He at 1. rewrite Hr.
  destruct (decide (d = 1)) as [->|Hd1].
  - destruct Hseq as [|Hlt]; [done|].
    rewrite concat_column by done. unfold np.sum, column. rewrite length_fmap.
    by rewrite (proj2 (Nat.ltb_lt _ _)).
  - rewrite (fold_zip_with_add d) by (by rewrite ?length_replicate).
    apply list_fmap_ext. intros i j [Hj Hi]%lookup_seq. unfold sum_in_order.
    f_equal. apply nth_lookup_Some. apply lookup_replicate_2. lia.
Qed.

(** [np.mean(a, axis=0)] is, there, the unweighted mean of each
    component. *)
Lemma mean_axis0_unweighted_mean d rows :
  rows ≠ [] → Forall (λ r, length r = d) rows → d ≠ 1 ∨ length rows < 8 →
  np.mean_axis0 rows = unweighted_mean d rows.
Proof.
  intros Hne Hd Hseq. unfold np.mean_axis0, unweighted_mean.
  by rewrite (sum_axis0_columns d), <-list_fmap_compose.
Qed.

Lemma column_scaled j d rows w :
  j < d → Forall (λ r, length r = d) rows →
  column j (zip_with (λ row wi, (λ x, x * wi)%float <$> row) rows w)
  = zip_with PrimFloat.mul (column j rows) w.
Proof.
  intros Hj Hd. revert w. unfold column.
  induction Hd as [|r rows Hr _ IH]; intros [|wi w]; simpl; try done.
  rewrite IH. f_equal.
  destruct (lookup_lt_is_Some_2 r j) as [x Hx]; [lia|].
  rewrite (nth_lookup_Some _ _ _ _ Hx).
  apply nth_lookup_Some. by rewrite list_lookup_fmap, Hx.
Qed.

(** Property X3: with fewer than eight vectors, as many weights, and weights
    that do not sum to zero, [combine_embeddings] returns the weighted mean
    of each component, the sums taken in order from [0.0]: the weights need
    not sum to one. (From eight weights on numpy adds them pairwise, which
    can round otherwise.) *)
Theorem combine_embeddings_weighted_mean (d : nat) (embeddings : list (list float))
    (weights : list float) :
  embeddings ≠ [] →
  Forall (λ v, length v = d) embeddings →
  length weights = length embeddings →
  length embeddings < 8 →
  (sum_in_order weights =? 0)%float = false →
  combine_embeddings embeddings (Some weights)
  = Ok (weighted_mean d embeddings weights).
Proof.
  intros Hne Hd Hlen Hfew Hsum. unfold combine_embeddings.
  rewrite (array2_rectangular d) by done.
  destruct embeddings as [|r rs] eqn:He; [done|]. rewrite <-He in *. simpl.
  unfold np.average_axis0. destruct (decide _); [|done].
  assert (np.sum weights = sum_in_order weights) as ->.
  { unfold np.sum. by rewrite (proj2 (Nat.ltb_lt _ _)) by lia. }
  rewrite Hsum. f_equal. unfold weighted_mean.
  rewrite (sum_axis0_columns d).
  - rewrite <-list_fmap_compose. apply list_fmap_ext.
    intros i j [Hj Hi]%lookup_seq. simpl in *. subst j.
    by rewrite (column_scaled i d).
  - rewrite He in *. by destruct weights.
  - clear -Hd. revert weights.
    induction Hd as [|r' rows Hr' _ IH]; intros [|wi w]; simpl; constructor.
    + by rewrite length_fmap.
    + apply IH.
  - right. rewrite length_zip_with. lia.
Qed.

Lemma combine_embeddings_weighted_mean_witness :
  combine_embeddings sample_embeddings (Some [5; 1]%float)
  = Ok (weighted_mean 2 sample_embeddings [5; 1]%float).
Proof.
  apply (combine_embeddings_weighted_mean 2 sample_embeddings [5; 1]%float).
  - discriminate.
  - repeat constructor.
  - reflexivity.
  - simpl. lia.
  - reflexivity.
Defined.

(** Eight weights are summed pairwise: [1e16] and seven times [1.0] sum to
    [1e16 + 6], where the sum in order is [1e16], and the weighted mean of
    eight times [[1.0, 2.0]] is not [[1.0, 2.0]]. *)
Lemma combine_embeddings_eight_weights :
  np.sum (1e16 :: replicate 7 1)%float = 10000000000000006%float
  ∧ sum_in_order (1e16 :: replicate 7 1)%float = 1e16%float
  ∧ combine_embeddings (replicate 8 [1; 2]%float) (Some (1e16 :: replicate 7 1)%float)
    = Ok [0x1.ffffffffffffbp-1; 0x1.ffffffffffffbp+0]%float.
Proof. by vm_compute. Qed.

(** Property X4: with another number of weights than vectors [np.average]
    raises [ValueError]. *)
Theorem combine_embeddings_weight_count (d : nat) (embeddings : list (list float))
    (weights : list float) :
  embeddings ≠ [] →
  Forall (λ v, length v = d) embeddings →
  length weights ≠ length embeddings →
  combine_embeddings embeddings (Some weights)
  = Raise (ValueError (lit "Length of weights not compatible with specified axis.")).
Proof.
  intros Hne Hd Hlen. unfold combine_embeddings.
  rewrite (array2_rectangular d) by done.
  destruct embeddings; [done|]. simpl. unfold np.average_axis0.
  by destruct (decide _).
Qed.

Lemma combine_embeddings_weight_count_witness :
  combine_embeddings sample_embeddings (Some [1]%float)
  = Raise (ValueError (lit "Length of weights not compatible with specified axis.")).
Proof.
  apply (combine_embeddings_weight_count 2 sample_embeddings [1]%float).
  - discriminate.
  - repeat constructor.
  - simpl. lia.
Defined.

(** Claim C5, for weights all equal to [1.0]: for a non-empty list of fewer
    than [2^53] vectors of one dimension, [combine_embeddings] with those
    weights returns the very vector it returns with the weights omitted.
    Where numpy adds the vectors in order, that is for vectors of another
    dimension than one or for fewer than eight vectors, that vector is the
    unweighted mean of each component, the sum taken in order from [0.0].
    With weights all equal to [0.0] the call raises the [ZeroDivisionError]
    of [np.average]. *)
Theorem combine_embeddings_unit_weights (d : nat) (embeddings : list (list float)) :
  embeddings ≠ [] →
  Forall (λ v, length v = d) embeddings →
  (Z.of_nat (length embeddings) < 2 ^ 53)%Z →
  combine_embeddings embeddings (Some (replicate (length embeddings) 1%float))
  = combine_embeddings embeddings None
  ∧ (d ≠ 1 ∨ length embeddings < 8 →
     combine_embeddings embeddings None = Ok (unweighted_mean d embeddings))
  ∧ combine_embeddings embeddings (Some (replicate (length embeddings) 0%float))
    = Raise (ZeroDivisionError (lit "Weights sum to zero, can't be normalized")).
Proof.
  intros Hne Hd Hlen.
  assert (combine_embeddings embeddings None = Ok (np.mean_axis0 embeddings)) as Hmean.
  { unfold combine_embeddings. rewrite (array2_rectangular d) by done.
    by destruct embeddings. }
  assert (∀ w, combine_embeddings embeddings (Some (replicate (length embeddings) w))
               = np.average_axis0 embeddings (replicate (length embeddings) w))
    as Haverage.
  { intros w. unfold combine_embeddings. rewrite (array2_rectangular d) by done.
    by destruct embeddings. }
  assert (0 < length embeddings) by (destruct embeddings; [done | simpl; lia]).
  split_and!.
  - rewrite Hmean, Haverage.
    unfold np.average_axis0. rewrite length_replicate.
    destruct (decide _); [|done].
    by rewrite sum_ones, of_count_nonzero, scale_rows_by_one.
  - intros Hseq. by rewrite Hmean, (mean_axis0_unweighted_mean d).
  - rewrite Haverage.
    unfold np.average_axis0. rewrite length_replicate.
    destruct (decide _); [|done].
    by rewrite sum_zeros.
Qed.

Lemma combine_embeddings_unit_weights_witness :
  combine_embeddings sample_embeddings
    (Some (replicate (length sample_embeddings) 1%float))
  = combine_embeddings sample_embeddings None
  ∧ combine_embeddings sample_embeddings None
    = Ok (unweighted_mean 2 sample_embeddings)
  ∧ combine_embeddings sample_embeddings
      (Some (replicate (length sample_embeddings) 0%float))
    = Raise (ZeroDivisionError (lit "Weights sum to zero, can't be normalized")).
Proof.
  destruct (combine_embeddings_unit_weights 2 sample_embeddings)
    as (Hones & Hmean & Hzeros).
  - discriminate.
  - repeat constructor.
  - reflexivity.
  - split_and!; [exact Hones | apply Hmean; left; lia | exact Hzeros].
Defined.

(** Claim C5 as it is worded, at two uniform weightings: with weights all
    [0.0] numpy raises [ZeroDivisionError] where the unweighted call returns
    the mean [[2.0, 3.0]]; with weights all [0.1] the weighted call returns
    [2.333333333333333] where the unweighted one returns
    [2.3333333333333335]. *)
Lemma combine_embeddings_uniform_weights_differ :
  combine_embeddings sample_embeddings (Some [0; 0]%float)
  = Raise (ZeroDivisionError (lit "Weights sum to zero, can't be normalized"))
  ∧ combine_embeddings sample_embeddings None = Ok [2; 3]%float
  ∧ combine_embeddings [[1]; [2]; [4]]%float
      (Some [0x1.999999999999ap-4; 0x1.999999999999ap-4; 0x1.999999999999ap-4]%float)
    = Ok [0x1.2aaaaaaaaaaaap+1]%float
  ∧ combine_embeddings [[1]; [2]; [4]]%float None = Ok [0x1.2aaaaaaaaaaabp+1]%float.
Proof. by vm_compute. Qed.

(** Nine vectors of one component are summed pairwise: the mean of [1e16]
    and eight times [1.0] is [1111111111111112.0], where the sum in order
    gives [1111111111111111.125]; and the mean of [[-0.0]] is [[0.0]]. *)
Lemma combine_embeddings_nine_vectors :
  combine_embeddings ([1e16] :: replicate 8 [1])%float None
  = Ok [1111111111111112]%float
  ∧ unweighted_mean 1 ([1e16] :: replicate 8 [1])%float = [1111111111111111.125]%float
  ∧ combine_embeddings [[-0]]%float None = Ok [0]%float.
Proof. by vm_compute. Qed.

(** ** Division by one *)

Local Open Scope Z_scope.

Lemma div_eucl_mul q b : 0 < b → Z.div_eucl (q * b) b = (q, 0).
Proof.
  intros Hb.
  assert (Z.div_eucl (q * b) b = ((q * b) / b, (q * b) mod b)) as ->.
  { unfold Z.div, Z.modulo. by destruct (Z.div_eucl (q * b) b). }
  rewrite Z.div_mul, Z.mod_mul by lia. done.
Qed.

Lemma fexp_cases d e :
  0 < d →
  fexp prec emax (d + e) = e →
  (d = 53 ∧ -1074 < e ∧ fexp prec emax (d + e - 1) = e - 1)
  ∨ (e = -1074 ∧ fexp prec emax (d + e - 1) = e).
Proof.
  unfold fexp, emin, emax, prec. lia.
Qed.

Lemma SFdiv_one x :
  valid_binary x = true →
  SF64div x (S754_finite false 4503599627370496 (-52)) = x.
Proof.
  destruct x as [[]|[]| |s m e]; try done.
  cbn [valid_binary]. intros [Hcan Hmax]%bounded_inv.
  cbn [SF64div SFdiv]. rewrite xorb_false_r.
  unfold SFdiv_core_binary.
  change (Zdigits2 (Z.pos m)) with (Z.pos (digits2_pos m)).
  change (Zdigits2 4503599627370496) with 53.
  replace (Z.pos (digits2_pos m) + e - (53 + -52)) with (Z.pos (digits2_pos m) + e - 1)
    by lia.
  destruct (fexp_cases (Z.pos (digits2_pos m)) e) as [(Hd & He & ->)|[He ->]];
    [lia|done|..].
  - replace (Z.min (e - 1) (e - -52)) with (e - 1) by lia.
    replace (e - -52 - (e - 1)) with 53 by lia.
    rewrite Z.shiftl_mul_pow2 by lia.
    replace (Z.pos m * 2 ^ 53) with (Z.pos m~0 * 4503599627370496) by lia.
    rewrite div_eucl_mul by lia.
    change (new_location 4503599627370496 0) with loc_Exact.
    unfold binary_round_aux, shr_fexp.
    change (Zdigits2 (Z.pos m~0)) with (Z.pos (Pos.succ (digits2_pos m))).
    rewrite Pos2Z.inj_succ.
    replace (Z.succ (Z.pos (digits2_pos m)) + (e - 1))
      with (Z.pos (digits2_pos m) + e) by lia.
    rewrite Hcan. replace (e - (e - 1)) with 1 by lia.
    change (shr (shr_record_of_loc (Z.pos m~0) loc_Exact) (e - 1) 1)
      with (Build_shr_record (Z.pos m) false false, e - 1 + 1).
    replace (e - 1 + 1) with e by lia.
    cbn [shr_m round_nearest_even loc_of_shr_record shr_record_of_loc Zdigits2].
    rewrite Hcan, Z.sub_diag. cbn [shr shr_m].
    by rewrite (proj2 (Z.leb_le _ _) Hmax).
  - replace (Z.min e (e - -52)) with e by lia.
    replace (e - -52 - e) with 52 by lia.
    rewrite Z.shiftl_mul_pow2 by lia.
    change (2 ^ 52) with 4503599627370496.
    rewrite div_eucl_mul by lia.
    change (new_location 4503599627370496 0) with loc_Exact.
    by apply binary_round_aux_canonical.
Qed.

(** Dividing by [1.0] changes no binary64 number. *)
Lemma div_one (x : float) : (x / 1)%float = x.
Proof.
  apply Prim2SF_inj. rewrite FloatAxioms.div_spec, Prim2SF_one.
  apply SFdiv_one, Prim2SF_valid.
Qed.

Local Close Scope Z_scope.

(** ** Not-a-number components *)

Lemma is_nan_eq (x : float) : is_nan x = true → x = nan.
Proof.
  intros H. apply Prim2SF_inj.
  destruct (sf_nan (Prim2SF x)) eqn:E.
  - by destruct (Prim2SF x).
  - apply is_nan_rank in E. congruence.
Qed.

Lemma add_nan_l (y : float) : (nan + y)%float = nan.
Proof. apply Prim2SF_inj. rewrite FloatAxioms.add_spec. by destruct (Prim2SF y) as [[]|[]| |]. Qed.

Lemma add_nan_r (x : float) : (x + nan)%float = nan.
Proof. apply Prim2SF_inj. rewrite FloatAxioms.add_spec. by destruct (Prim2SF x) as [[]|[]| |]. Qed.

Lemma mul_nan_l (y : float) : (nan * y)%float = nan.
Proof. apply Prim2SF_inj. rewrite FloatAxioms.mul_spec. by destruct (Prim2SF y) as [[]|[]| |]. Qed.

Lemma div_nan_l (y : float) : (nan / y)%float = nan.
Proof. apply Prim2SF_inj. rewrite FloatAxioms.div_spec. by destruct (Prim2SF y) as [[]|[]| |]. Qed.

Lemma fold_inner_nan (l : list (float * float)) :
  fold_left (λ acc xy, acc + xy.1 * xy.2)%float l nan = nan.
Proof. induction l as [|xy l IH]; [done|]. simpl. by rewrite add_nan_l. Qed.

Lemma fold_inner_nan_component (a b : list float) acc :
  length a = length b →
  Exists (λ x, is_nan x = true) a →
  fold_left (λ acc xy, acc + xy.1 * xy.2)%float (zip a b) acc = nan.
Proof.
  intros Hlen Hex. revert b acc Hlen.
  induction Hex as [x a Hx|x a Hex IH]; intros [|y b] acc Hlen; try done; simpl.
  - rewrite (is_nan_eq x Hx), mul_nan_l, add_nan_r. apply fold_inner_nan.
  - apply IH. simpl in Hlen. lia.
Qed.

Lemma inner_nan_component (a b : list float) :
  length a = length b →
  Exists (λ x, is_nan x = true) a →
  np.inner a b = nan ∧ np.inner b a = nan ∧ np.linalg_norm a = nan.
Proof.
  intros Hlen Hex. split_and!.
  - by apply fold_inner_nan_component.
  - rewrite inner_comm. by apply fold_inner_nan_component.
  - unfold np.linalg_norm, np.inner. by rewrite fold_inner_nan_component.
Qed.

(** Property X6: a NaN component in one vector makes the score NaN, in
    either order of the arguments, unless the magnitude of the other vector
    is zero: then the score is [0.0], as against every vector. *)
Theorem cosine_similarity_nan_component (a b : list float) :
  length a = length b →
  Exists (λ x, is_nan x = true) a →
  cosine_similarity a b
  = Ok (if (np.linalg_norm b =? 0)%float then 0%float else nan)
  ∧ cosine_similarity b a
    = Ok (if (np.linalg_norm b =? 0)%float then 0%float else nan).
Proof.
  intros Hlen Hex.
  destruct (inner_nan_component a b Hlen Hex) as (Hab & Hba & Hn).
  unfold cosine_similarity, np.dot.
  rewrite !decide_True by done. simpl. rewrite Hab, Hba, Hn.
  change (nan =? 0)%float with false. rewrite orb_false_r. simpl.
  destruct (np.linalg_norm b =? 0)%float; by rewrite ?div_nan_l.
Qed.

Lemma cosine_similarity_nan_component_witness :
  cosine_similarity [1; nan]%float [3; 4]%float = Ok nan
  ∧ cosine_similarity [3; 4]%float [1; nan]%float = Ok nan.
Proof.
  apply (cosine_similarity_nan_component [1; nan]%float [3; 4]%float);
    [reflexivity|].
  apply Exists_cons_tl, Exists_cons_hd. reflexivity.
Defined.

(** ** One vector *)

Lemma zip_with_add_zeros (v : list float) :
  zip_with PrimFloat.add (replicate (length v) 0%float) v = unsigned_zero <$> v.
Proof.
  induction v as [|x v IH]; [done|]. simpl. by rewrite IH, zero_add.
Qed.

(** Property X7: combining one vector, without weights, returns that vector
    with [+0.0] in the place of each component [-0.0], and changes no other
    component: the sum of one row starts from [+0.0], and dividing by [1.0]
    changes nothing. *)
Theorem combine_embeddings_single (v : list float) :
  combine_embeddings [v] None = Ok (unsigned_zero <$> v).
Proof.
  unfold combine_embeddings. simpl. f_equal.
  unfold np.mean_axis0. simpl length. change (np.of_count 1) with 1%float.
  assert (np.sum_axis0 [v] = unsigned_zero <$> v) as ->.
  { unfold np.sum_axis0. destruct (decide (length v = 1)) as [Hv|Hv].
    - destruct v as [|x [|??]]; try done. simpl. by rewrite <-zero_add.
    - simpl. apply zip_with_add_zeros. }
  rewrite <-list_fmap_compose. apply list_fmap_ext. intros _ x _. simpl.
  apply div_one.
Qed.

(** ** Search *)

Lemma result_mapM_mismatch (f : nat → nat) q cands j c :
  cands !! j = Some c → length c ≠ length q →
  (∀ i c', i < j → cands !! i = Some c' → length c' = length q) →
  result_mapM
    (λ ic, similarity ← cosine_similarity q ic.2; Ok (ic.1, similarity))
    (imap (λ i x, (f i, x)) cands)
  = Raise (ValueError (np.not_aligned (length q) (length c))).
Proof.
  revert j f. induction cands as [|c0 cands IH]; intros j f Hj Hc Hbefore; [done|].
  destruct j as [|j].
  - simplify_eq/=. unfold cosine_similarity, np.dot.
    by rewrite decide_False by congruence.
  - simpl. destruct (cosine_similarity_total q c0) as [s ->].
    { symmetry. apply (Hbefore 0 c0); [lia|done]. }
    simpl.
    assert (result_mapM
      (λ ic, similarity ← cosine_similarity q ic.2; Ok (ic.1, similarity))
      (imap (λ i x, ((f ∘ S) i, x)) cands)
      = Raise (ValueError (np.not_aligned (length q) (length c)))) as Htl.
    { apply (IH j (f ∘ S)); [done|done|].
      intros i c' Hi Hc'. apply (Hbefore (S i)); [lia|done]. }
    unfold compose in Htl |- *. by rewrite Htl.
Qed.

Lemma similarities_mismatch q cands j c :
  cands !! j = Some c → length c ≠ length q →
  (∀ i c', i < j → cands !! i = Some c' → length c' = length q) →
  similarities q cands = Raise (ValueError (np.not_aligned (length q) (length c))).
Proof. apply (result_mapM_mismatch id). Qed.

(** Property X8: a candidate of another length than the query makes the
    whole search raise, with numpy's [ValueError] for the first such
    candidate, whatever [top_k] is: no result is returned for the others. *)
Theorem semantic_search_mismatched_candidate (q : list float)
    (cands : list (list float)) (j : nat) (c : list float) (k : Z) :
  cands !! j = Some c → length c ≠ length q →
  (∀ i c', i < j → cands !! i = Some c' → length c' = length q) →
  semantic_search q cands k
  = Raise (ValueError (np.not_aligned (length q) (length c))).
Proof.
  intros Hj Hc Hbefore. unfold semantic_search.
  destruct cands as [|c0 cands]; [done|].
  by rewrite (similarities_mismatch q (c0 :: cands) j c).
Qed.

Lemma semantic_search_mismatched_candidate_witness :
  semantic_search [1; 0]%float [[1; 0]; [1]; [1; 2; 3]]%float 0
  = Raise (ValueError (np.not_aligned 2 1)).
Proof.
  apply (semantic_search_mismatched_candidate [1; 0]%float
           [[1; 0]; [1]; [1; 2; 3]]%float 1 [1]%float 0).
  - reflexivity.
  - simpl. lia.
  - intros [|i] c' Hi Hc'; [|lia]. injection Hc' as <-. reflexivity.
Defined.

(** Property X9: for [0 <= k <= k'], the results for [top_k = k] are the
    first [k] of the results for [top_k = k']. *)
Theorem semantic_search_prefix (q : list float) (cands : list (list float))
    (k k' : Z) (res' : list (nat * float)) :
  (0 ≤ k ≤ k')%Z →
  semantic_search q cands k' = Ok res' →
  semantic_search q cands k = Ok (take (Z.to_nat k) res').
Proof.
  intros Hk. unfold semantic_search.
  destruct cands as [|c0 cands].
  - intros [= <-]. by rewrite take_nil.
  - destruct (similarities q (c0 :: cands)) as [sims|e]; [|done]. simpl.
    intros [= <-]. f_equal.
    rewrite !slice_to_nonneg by lia. rewrite take_take. f_equal. lia.
Qed.

Lemma semantic_search_prefix_witness :
  semantic_search sample_query sample_candidates 2
  = Ok (take (Z.to_nat 2) [(0, 1%float); (2, 1%float); (1, 0%float)]).
Proof.
  apply (semantic_search_prefix sample_query sample_candidates 2 3); [lia|].
  reflexivity.
Defined.

(** ** Negated vectors *)

Local Open Scope Z_scope.

Lemma binary_round_aux_opp s m e l :
  binary_round_aux prec emax (negb s) m e l
  = SFopp (binary_round_aux prec emax s m e l).
Proof.
  unfold binary_round_aux.
  destruct (shr_fexp prec emax m e l) as [mrs' e'].
  destruct (shr_fexp prec emax _ e' loc_Exact) as [mrs'' e''].
  destruct (shr_m mrs''); [done| |done].
  by destruct (e'' <=? emax - prec).
Qed.

Lemma binary_round_opp s m e :
  binary_round prec emax (negb s) m e = SFopp (binary_round prec emax s m e).
Proof.
  unfold binary_round. destruct (shl_align _ _ _) as [mz ez].
  apply binary_round_aux_opp.
Qed.

Lemma binary_normalize_opp m e :
  sf_negated (binary_normalize prec emax m e false)
    (binary_normalize prec emax (- m) e false).
Proof.
  destruct m as [|m|m]; simpl.
  - by right.
  - left. apply (binary_round_opp false).
  - left. apply (binary_round_opp true).
Qed.

Lemma SFmul_opp_r x y : SF64mul x (SFopp y) = SFopp (SF64mul x y).
Proof.
  destruct x as [sx|sx| |sx mx ex], y as [sy|sy| |sy my ey]; try done;
    destruct sx, sy; try done;
    first [apply (binary_round_aux_opp false) | apply (binary_round_aux_opp true)].
Qed.

Lemma SFmul_opp_opp x : SF64mul (SFopp x) (SFopp x) = SF64mul x x.
Proof. destruct x as [[]|[]| |[] m e]; done. Qed.

Lemma SFdiv_opp_l x y : SF64div (SFopp x) y = SFopp (SF64div x y).
Proof.
  destruct x as [sx|sx| |sx mx ex], y as [sy|sy| |sy my ey]; try done;
    destruct sx, sy; try done; cbn [SF64div SFdiv SFopp xorb negb];
    destruct (SFdiv_core_binary _ _ _ _ _ _) as [[mz ez] lz];
    first [apply (binary_round_aux_opp false) | apply (binary_round_aux_opp true)].
Qed.

Lemma SFdiv_negated x x' y :
  sf_negated x x' → sf_negated (SF64div x y) (SF64div x' y).
Proof.
  intros [->|[Hx Hx']].
  - left. apply SFdiv_opp_l.
  - destruct x as [sx| | |]; try done. destruct x' as [sx'| | |]; try done.
    destruct y as [sy|sy| |sy my ey]; simpl.
    + by left.
    + by right.
    + by left.
    + by right.
Qed.

Lemma cond_Zopp_negb s z : cond_Zopp (negb s) z = - cond_Zopp s z.
Proof. destruct s; simpl; lia. Qed.

Lemma SFadd_opp x y : sf_negated (SF64add x y) (SF64add (SFopp x) (SFopp y)).
Proof.
  destruct x as [sx|sx| |sx mx ex], y as [sy|sy| |sy my ey];
    try (left; by repeat match goal with s : bool |- _ => destruct s end).
  - destruct sx, sy; simpl; (by left) || (by right).
  - cbn [SF64add SFadd SFopp]. rewrite !cond_Zopp_negb, <-Z.opp_add_distr.
    apply binary_normalize_opp.
Qed.

Lemma SFadd_negated a a' p :
  sf_negated a a' → sf_negated (SF64add a p) (SF64add a' (SFopp p)).
Proof.
  intros [->|[Ha Ha']]; [apply SFadd_opp|].
  destruct a as [sa| | |]; try done. destruct a' as [sa'| | |]; try done.
  destruct p as [sp|sp| |sp mp ep]; simpl.
  - right. by destruct sa, sa', sp.
  - by left.
  - by left.
  - by left.
Qed.

Local Close Scope Z_scope.

Lemma negated_spec (x y : float) :
  sf_negated (Prim2SF x) (Prim2SF y) → negated x y.
Proof.
  intros [H|[Hx Hy]].
  - left. apply Prim2SF_inj. by rewrite FloatAxioms.opp_spec.
  - right. rewrite !FloatAxioms.eqb_spec.
    change (Prim2SF 0) with (S754_zero false).
    by destruct (Prim2SF x), (Prim2SF y).
Qed.

Lemma fold_inner_negated (a b : list float) (acc acc' : float) :
  sf_negated (Prim2SF acc) (Prim2SF acc') →
  sf_negated
    (Prim2SF (fold_left (λ acc xy, acc + xy.1 * xy.2)%float (zip a b) acc))
    (Prim2SF (fold_left (λ acc xy, acc + xy.1 * xy.2)%float
                (zip a (PrimFloat.opp <$> b)) acc')).
Proof.
  revert b acc acc'. induction a as [|x a IH]; intros [|y b] acc acc' Hacc;
    try done.
  simpl. apply IH.
  rewrite !FloatAxioms.add_spec, !FloatAxioms.mul_spec, FloatAxioms.opp_spec, SFmul_opp_r.
  by apply SFadd_negated.
Qed.

Lemma inner_negated_self (b : list float) :
  np.inner (PrimFloat.opp <$> b) (PrimFloat.opp <$> b) = np.inner b b.
Proof.
  unfold np.inner. generalize 0%float.
  induction b as [|y b IH]; intros acc; [done|]. simpl.
  assert (- y * - y = y * y)%float as ->; [|apply IH].
  apply Prim2SF_inj.
  by rewrite !FloatAxioms.mul_spec, FloatAxioms.opp_spec, SFmul_opp_opp.
Qed.

(** Property X10: negating every component of one vector negates the
    score: the two scores are each other's negation, or both are zeros. *)
Theorem cosine_similarity_negated (a b : list float) :
  length a = length b →
  ∃ r r',
    cosine_similarity a b = Ok r
    ∧ cosine_similarity a (PrimFloat.opp <$> b) = Ok r'
    ∧ negated r r'.
Proof.
  intros Hlen. unfold cosine_similarity, np.dot, np.linalg_norm.
  rewrite length_fmap, !decide_True by done. simpl.
  rewrite inner_negated_self.
  destruct ((PrimFloat.sqrt (np.inner a a) =? 0)%float
            || (PrimFloat.sqrt (np.inner b b) =? 0)%float).
  - eexists _, _. split_and!; [done..|]. by right.
  - eexists _, _. split_and!; [done..|].
    apply negated_spec. rewrite !FloatAxioms.div_spec.
    apply SFdiv_negated, fold_inner_negated. by right.
Qed.

Lemma cosine_similarity_negated_witness :
  ∃ r r',
    cosine_similarity [3; 4]%float [4; 3]%float = Ok r
    ∧ cosine_similarity [3; 4]%float (PrimFloat.opp <$> [4; 3]%float) = Ok r'
    ∧ negated r r'.
Proof.
  apply (cosine_similarity_negated [3; 4]%float [4; 3]%float). reflexivity.
Defined.

(** ** [embed_texts] *)

(** Property X11: [embed_texts] returns the empty list for the empty list,
    without a call or a log record. Any other list goes to the client once
    and as it is, with the texts [embed_text] would answer with zeros; the
    outcome is the client's, after one DEBUG record, or one ERROR record with
    the message of the exception. *)
Theorem embed_texts_sends_all (c : documents_client) :
  embed_texts c [] = ([], Returned [])
  ∧ ∀ t texts,
      embed_texts c (t :: texts)
      = ([AembedDocuments (t :: texts);
          Service
            match c (t :: texts) with
            | Ok _ =>
                Log DEBUG (lit "Generated embeddings for "
                           ++ lit (pretty (S (length texts))) ++ lit " texts")
            | Raise e =>
                Log ERROR (lit "Error generating embeddings: " ++ str_of_exception e)
            end],
         outcome_of (c (t :: texts))).
Proof.
  split; [done|]. intros t texts. unfold embed_texts, aembed_documents.
  by destruct (c (t :: texts)).
Qed.

(** ** The database *)

(** Membership in a list that is written out. *)
Ltac in_list :=
  repeat first [by apply list_elem_of_here | apply list_elem_of_further].

Ltac not_in_list :=
  let H := fresh in
  intros H;
  repeat (apply elem_of_cons in H as [H|H]; [discriminate H|]);
  by apply elem_of_nil in H.

(** Property X12: [DatabaseManager.health_check] raises nothing and returns
    a dictionary of the status and the database URL, with no error text: the
    status is "healthy" when the session opened, ran [SELECT 1] and closed,
    and "unhealthy" in every other case. A session that was entered is
    left. *)
Theorem database_health_check_status (settings : AppSettings) (db : database.Engines) :
  ∃ effs,
    database.health_check settings db
    = (effs,
       Returned (<["status" := PyStr (if session_ok db then lit "healthy"
                                      else lit "unhealthy")]>
                 (<["database_url" := PyStr (database_url settings)]> ∅)))
    ∧ match database.session_enter db with
      | Ok _ => ∃ failed, Db (SessionExit failed) ∈ effs
      | Raise _ => effs = [Db SessionEnter]
      end.
Proof.
  unfold database.health_check, database.check_db_health, session_ok, async_with,
    database.call.
  destruct (database.session_enter db) as [[]|e1]; [|by eexists].
  destruct (database.session_execute db (lit "SELECT 1")) as [[]|e2]; simpl.
  - destruct (database.session_exit db false) as [[]|e3]; eexists;
      (split; [done|]); exists false; in_list.
  - destruct (database.session_exit db true) as [[]|e3]; eexists;
      (split; [done|]); exists true; in_list.
Qed.

Lemma database_health_check_returns (settings : AppSettings) (db : database.Engines) :
  ∃ effs,
    database.health_check settings db
    = (effs,
       Returned (<["status" := PyStr (status_word (session_ok db))]>
                 (<["database_url" := PyStr (database_url settings)]> ∅)))
    ∧ ∀ lvl msg, MainLog lvl msg ∉ effs.
Proof.
  unfold database.health_check, database.check_db_health, session_ok, async_with,
    database.call, status_word.
  destruct (database.session_enter db) as [[]|e1];
    [|eexists; split; [done|intros ??; not_in_list]].
  destruct (database.session_execute db (lit "SELECT 1")) as [[]|e2]; simpl.
  - destruct (database.session_exit db false) as [[]|e3]; eexists;
      (split; [done|]); intros ??; not_in_list.
  - destruct (database.session_exit db true) as [[]|e3]; eexists;
      (split; [done|]); intros ??; not_in_list.
Qed.

(** ** The endpoints *)

Lemma service_health_check_cases (settings : Settings) (self : EmbeddingService) :
  ∃ evs d,
    health_check settings self = (evs, Ok d)
    ∧ d !! "status" = Some (PyStr (status_word (client_ok self)))
    ∧ (client_ok self = false → evs !! 0 = Some (AembedQuery (lit "health check"))).
Proof.
  unfold health_check, embed_text, client_ok, status_word.
  destruct (decide (strip (lit "health check") = [])) as [H|_]; [by vm_compute in H|].
  unfold aembed_query. destruct (openai_embeddings self _); by eexists _, _.
Qed.

Lemma new_HealthResponse_strs vr st k1 k2 (a b : str) v :
  main.new_HealthResponse vr st (<[k1 := PyStr a]> (<[k2 := PyStr b]> ∅)) v
  = app_ret {| status := st; services := <[k1 := a]> (<[k2 := b]> ∅); version := v |}.
Proof.
  unfold main.new_HealthResponse. rewrite decide_True.
  - by rewrite (omap_insert_Some _ _ _ _ a), (omap_insert_Some _ _ _ _ b), omap_empty.
  - apply map_Forall_insert_2; [done|]. apply map_Forall_insert_2; [done|].
    apply map_Forall_empty.
Qed.

Lemma status_word_healthy b :
  bool_decide (Some (PyStr (status_word b)) = Some (PyStr (lit "healthy"))) = b.
Proof. by destruct b. Qed.

(** Property X13: the endpoint [GET /health] always returns a response:
    "healthy" when the database session and the test call of the embeddings
    client both succeed, "degraded" otherwise, never "unhealthy". The
    services are the two statuses, each "healthy" or "unhealthy"; the logger
    of [app.main] records nothing. *)
Theorem health_endpoint_status (settings : AppSettings)
    (validation_report : gmap string pyval → str)
    (db : database.Engines) (embedding_service : EmbeddingService) :
  ∃ effs,
    main.health_check settings validation_report db embedding_service
    = (effs,
       Returned {|
         status := if session_ok db && client_ok embedding_service
                   then lit "healthy" else lit "degraded";
         services :=
           <["database" := status_word (session_ok db)]>
           (<["embedding_service" := status_word (client_ok embedding_service)]> ∅);
         version := app_version settings |})
    ∧ ∀ lvl msg, MainLog lvl msg ∉ effs.
Proof.
  destruct (database_health_check_returns settings db) as (effs1 & Hdb & Hlog).
  destruct (service_health_check_cases (service_settings settings) embedding_service)
    as (evs & d & Hsvc & Hst & _).
  unfold main.health_check. rewrite Hdb, Hsvc. unfold await. simpl.
  rewrite lookup_insert_eq, Hst. simpl. rewrite !status_word_healthy.
  rewrite new_HealthResponse_strs. simpl.
  eexists. split; [done|].
  intros lvl msg. rewrite !app_nil_r, elem_of_app, list_elem_of_fmap.
  intros [?|(? & ? & ?)]; [by eapply Hlog|done].
Qed.

(** ** [lifespan] *)

(** The initialization of the database calls the database only. *)
Lemma init_db_effects (db : database.Engines) :
  Forall (λ eff, ∃ c, eff = Db c) (database.init_db db).1.
Proof.
  unfold database.init_db, async_with, database.call.
  destruct (database.engine_begin db) as [[]|e0]; simpl;
    [|repeat constructor; by eexists].
  destruct (database.conn_execute db _) as [[]|e1]; simpl.
  - destruct (database.create_all db) as [[]|e2]; simpl.
    + destruct (database.engine_exit db false) as [[]|e3]; simpl;
        repeat constructor; by eexists.
    + destruct (database.engine_exit db true) as [[]|e3]; simpl;
        repeat constructor; by eexists.
  - destruct (database.engine_exit db true) as [[]|e3]; simpl;
      repeat constructor; by eexists.
Qed.

Lemma lifespan_startup_returns (settings : AppSettings)
    (str_of_dict : gmap string pyval → str)
    (db : database.Engines) (embedding_service : EmbeddingService) :
  ∃ effs,
    main.lifespan_startup settings str_of_dict db embedding_service
    = (effs, Returned ()).
Proof.
  unfold main.lifespan_startup.
  destruct (database.initialize db) as [effs0 [[]|e]]; simpl; [|by eexists].
  destruct (service_health_check_cases (service_settings settings)
              embedding_service) as (evs & d & -> & Hst & _).
  unfold await, main.getitem. simpl. rewrite Hst. simpl.
  destruct (decide _); by eexists.
Qed.

Lemma lifespan_shutdown_returns (db : database.Engines) :
  ∃ effs, main.lifespan_shutdown db = (effs, Returned ()).
Proof.
  unfold main.lifespan_shutdown, database.close, database.close_db, database.call.
  destruct (database.async_dispose db) as [[]|e]; [|by eexists].
  destruct (database.sync_dispose db) as [[]|e]; by eexists.
Qed.

(** Property X14: the startup of [lifespan] raises nothing. When the
    database initialization raises, the error and the warning are logged and
    the embedding service is not checked; when it returns, the service is
    checked once, and the last record tells whether the check was healthy. *)
Theorem lifespan_startup_completes (settings : AppSettings)
    (str_of_dict : gmap string pyval → str)
    (db : database.Engines) (embedding_service : EmbeddingService) :
  ∃ effs,
    main.lifespan_startup settings str_of_dict db embedding_service
    = (effs, Returned ())
    ∧ match (database.initialize db).2 with
      | Returned _ =>
          ∃ evs d,
            health_check (service_settings settings) embedding_service = (evs, Ok d)
            ∧ effs
              = MainLog INFO (lit "Starting up application...")
                :: (database.initialize db).1
                ++ MainLog INFO (lit "Database initialized successfully")
                :: (Service <$> evs)
                ++ [if client_ok embedding_service
                    then MainLog INFO (lit "Embedding service initialized successfully")
                    else MainLog ERROR (lit "Embedding service health check failed: "
                                        ++ str_of_dict d)]
      | Raised e =>
          effs
          = MainLog INFO (lit "Starting up application...")
            :: (database.initialize db).1
            ++ [MainLog ERROR (lit "Startup failed: " ++ str_of_raised e);
                MainLog WARNING (lit "Continuing without database connection...")]
          ∧ ∀ ev, Service ev ∉ effs
      end.
Proof.
  unfold main.lifespan_startup.
  pose proof (init_db_effects db) as Hdb. unfold database.initialize in *.
  destruct (database.init_db db) as [effs0 [[]|e]]; simpl.
  - destruct (service_health_check_cases (service_settings settings)
                embedding_service) as (evs & d & Hsvc & Hst & _).
    rewrite Hsvc. unfold await, main.getitem. simpl. rewrite Hst. simpl.
    unfold status_word. destruct (client_ok embedding_service).
    + rewrite decide_True by done. simpl. eexists. split; [done|].
      by exists evs, d.
    + rewrite decide_False by done. simpl. eexists. split; [done|].
      by exists evs, d.
  - eexists. split; [done|]. split; [done|].
    intros ev [Hin|Hin]%elem_of_cons; [done|].
    apply elem_of_app in Hin as [Hin|Hin].
    + simpl in Hdb. rewrite Forall_forall in Hdb.
      by destruct (Hdb _ Hin) as [c Hc].
    + revert Hin. not_in_list.
Qed.

(** Property X15: the shutdown of [lifespan] raises nothing. The
    synchronous engine is disposed of only when the disposal of the
    asynchronous engine returned; a failure of either is logged as an
    error. *)
Theorem lifespan_shutdown_disposes (db : database.Engines) :
  main.lifespan_shutdown db
  = (MainLog INFO (lit "Shutting down application...")
     :: Db AsyncDispose
     :: match database.async_dispose db with
        | Ok _ =>
            [Db SyncDispose;
             match database.sync_dispose db with
             | Ok _ => MainLog INFO (lit "Database connections closed")
             | Raise e => MainLog ERROR (lit "Shutdown error: " ++ str_of_exception e)
             end]
        | Raise e => [MainLog ERROR (lit "Shutdown error: " ++ str_of_exception e)]
        end,
     Returned ()).
Proof.
  unfold main.lifespan_shutdown, database.close, database.close_db, database.call.
  destruct (database.async_dispose db) as [[]|e]; [|done].
  by destruct (database.sync_dispose db) as [[]|e].
Qed.

(** Property X16: [lifespan] raises exactly when the serving raises, and
    with its exception: the shutdown part is then skipped, so the database
    connections are not closed. When the serving returns the shutdown part
    runs and [lifespan] returns. *)
Theorem lifespan_follows_serving (settings : AppSettings)
    (str_of_dict : gmap string pyval → str)
    (db : database.Engines) (embedding_service : EmbeddingService)
    (serving : App ()) :
  main.lifespan settings str_of_dict db embedding_service serving
  = match serving.2 with
    | Returned _ =>
        ((main.lifespan_startup settings str_of_dict db embedding_service).1
         ++ serving.1 ++ (main.lifespan_shutdown db).1,
         Returned ())
    | Raised e =>
        ((main.lifespan_startup settings str_of_dict db embedding_service).1
         ++ serving.1,
         Raised e)
    end.
Proof.
  unfold main.lifespan.
  destruct (lifespan_startup_returns settings str_of_dict db embedding_service)
    as [effs ->].
  destruct (lifespan_shutdown_returns db) as [effs' ->].
  by destruct serving as [effs1 [[]|e]].
Qed.

(** ** [init_db] *)

(** Property X17: [init_db] returns when entering the engine block, the
    two statements and leaving the block all return. The tables are created
    only after the extension statement returned; a block that was entered is
    left, last of all, and is told of a failure exactly when a statement
    raised. *)
Theorem init_db_transaction (db : database.Engines) :
  let extension := lit "CREATE EXTENSION IF NOT EXISTS vector" in
  let statements :=
    returns (database.conn_execute db extension) && returns (database.create_all db) in
  returned (database.init_db db).2
  = returns (database.engine_begin db) && statements
    && returns (database.engine_exit db false)
  ∧ bool_decide (Db CreateAll ∈ (database.init_db db).1)
    = returns (database.engine_begin db)
      && returns (database.conn_execute db extension)
  ∧ last (database.init_db db).1
    = Some (if returns (database.engine_begin db)
            then Db (EngineExit (negb statements)) else Db EngineBegin).
Proof.
  cbv zeta. unfold database.init_db, async_with, database.call.
  destruct (database.engine_begin db) as [[]|e0]; [|done].
  destruct (database.conn_execute db _) as [[]|e1]; simpl.
  - destruct (database.create_all db) as [[]|e2]; simpl.
    + by destruct (database.engine_exit db false) as [[]|e3].
    + by destruct (database.engine_exit db true) as [[]|e3].
  - by destruct (database.engine_exit db true) as [[]|e3].
Qed.

(** ** The validators *)

Lemma startswith_https (s : str) : startswith (lit "https://" ++ s) schemes = true.
Proof.
  unfold startswith, schemes. cbn [existsb].
  rewrite (bool_decide_eq_true_2 (lit "https://" `prefix_of` lit "https://" ++ s));
    [by rewrite orb_true_r|by exists s].
Qed.

(** Property X18: [validate_url] of the product schemas keeps [None],
    returns a text that starts with "http://" or "https://" as it is, and
    puts "https://" before every other text, the empty one too; so every
    text it returns starts with one of the two, and validating twice changes
    nothing more. *)
Theorem validate_url_scheme (v : option str) :
  ProductBase.validate_url v
  = (λ s, if startswith s schemes then s else lit "https://" ++ s) <$> v
  ∧ match ProductBase.validate_url v with
    | Some s => startswith s schemes = true
    | None => v = None
    end
  ∧ ProductBase.validate_url (ProductBase.validate_url v)
    = ProductBase.validate_url v
  ∧ ProductBase.validate_url (Some []) = Some (lit "https://").
Proof.
  destruct v as [s|]; [|done]. unfold ProductBase.validate_url.
  cbn [fmap option_fmap option_map].
  destruct (startswith s schemes) eqn:Hs; cbn [negb].
  - rewrite Hs. cbn [negb]. auto.
  - rewrite startswith_https. cbn [negb]. auto.
Qed.

(** Property X19: [validate_url] of the owner schemas agrees with that of
    the product schemas on every value but the empty text, which it leaves
    empty, where the product schemas give "https://". *)
Theorem validate_url_empty_differs (v : option str) :
  if decide (v = Some []) then
    SolutionOwnerBase.validate_url v = Some []
    ∧ ProductBase.validate_url v = Some (lit "https://")
  else SolutionOwnerBase.validate_url v = ProductBase.validate_url v.
Proof.
  destruct (decide (v = Some [])) as [->|Hv]; [done|].
  destruct v as [s|]; [|done].
  unfold SolutionOwnerBase.validate_url, ProductBase.validate_url.
  rewrite bool_decide_eq_true_2; [done|by intros ->].
Qed.

Lemma split_once_first (local domain : str) :
  64%N ∉ local → split_once 64 (local ++ 64%N :: domain) = [local; domain].
Proof.
  induction local as [|c local IH]; intros Hnot; [done|].
  apply not_elem_of_cons in Hnot as [Hc Hnot]. simpl.
  rewrite (proj2 (N.eqb_neq c 64)) by congruence. by rewrite IH.
Qed.

Lemma mask_email_at (local domain : str) :
  64%N ∉ local →
  SolutionOwnerResponse.mask_email (local ++ 64%N :: domain)
  = Ok (take 2 local ++ replicate (length local - 2) 42%N ++ 64%N :: domain).
Proof.
  intros Hnot. unfold SolutionOwnerResponse.mask_email.
  rewrite bool_decide_eq_true_2
    by (apply elem_of_app; right; apply list_elem_of_here).
  rewrite split_once_first by done.
  destruct (decide (2 < length local)) as [Hlen|Hlen].
  - rewrite slice_to_nonneg by lia. unfold list_times.
    replace (Z.to_nat (Z.of_nat (length local) - 2)) with (length local - 2) by lia.
    by rewrite <-app_assoc.
  - rewrite take_ge by lia. by replace (length local - 2) with 0 by lia.
Qed.

(** Property X20: [mask_email] keeps the first two characters of the part
    before the first "@", puts a star for each of its other characters, and
    keeps what follows: a part of one or two characters is left in clear. *)
Theorem mask_email_masks (local domain : str) :
  64%N ∉ local →
  SolutionOwnerResponse.mask_email (local ++ lit "@" ++ domain)
  = Ok (take 2 local ++ replicate (length local - 2) 42%N ++ lit "@" ++ domain).
Proof. apply mask_email_at. Qed.

Lemma mask_email_masks_witness :
  SolutionOwnerResponse.mask_email (lit "sales" ++ lit "@" ++ lit "acme.io")
  = Ok (take 2 (lit "sales") ++ replicate (length (lit "sales") - 2) 42%N
        ++ lit "@" ++ lit "acme.io").
Proof.
  apply (mask_email_masks (lit "sales") (lit "acme.io")).
  apply (bool_decide_unpack _). by vm_compute.
Defined.

(** Property X21: [mask_email] raises nothing, keeps the length of the
    text, and masking a masked text changes nothing. *)
Theorem mask_email_idempotent (v : str) :
  ∃ m, SolutionOwnerResponse.mask_email v = Ok m
       ∧ length m = length v
       ∧ SolutionOwnerResponse.mask_email m = Ok m.
Proof.
  destruct (decide (64%N ∈ v)) as [Hin|Hnot].
  - apply list_elem_of_split_l in Hin as (local & domain & -> & Hnot).
    rewrite mask_email_at by done.
    set (local' := take 2 local ++ replicate (length local - 2) 42%N).
    assert (length local' = length local) as Hlen.
    { unfold local'. rewrite length_app, length_take, length_replicate. lia. }
    assert (64%N ∉ local') as Hnot'.
    { unfold local'. intros [H|H]%elem_of_app.
      - apply elem_of_take in H as (i & Hi & _).
        by apply list_elem_of_lookup_2 in Hi.
      - by apply elem_of_replicate_inv in H. }
    assert (take 2 local' = take 2 local) as Htake.
    { unfold local'. destruct (decide (2 ≤ length local)).
      - rewrite take_app_le by (rewrite length_take; lia).
        by rewrite take_take.
      - replace (length local - 2) with 0 by lia. simpl.
        by rewrite app_nil_r, take_take. }
    exists (local' ++ 64%N :: domain). split_and!.
    + unfold local'. by rewrite <-app_assoc.
    + rewrite !length_app, Hlen. done.
    + rewrite mask_email_at by done. rewrite Htake, Hlen.
      unfold local'. by rewrite <-app_assoc.
  - exists v. unfold SolutionOwnerResponse.mask_email.
    by rewrite bool_decide_eq_false_2.
Qed.

(** ** The texts of the models *)

Lemma join_cons (sep p : str) (ps : list str) :
  ∃ rest, join sep (p :: ps) = p ++ rest.
Proof.
  destruct ps as [|p' ps]; simpl; [exists []; by rewrite app_nil_r|by eexists].
Qed.

(** A text that begins with a character that is no whitespace is not blank. *)
Lemma strip_cons (c : N) (s : str) : isspace c = false → strip (c :: s) ≠ [].
Proof.
  intros Hc Hnil%strip_nil_inv. simpl in Hnil. by rewrite Hc in Hnil.
Qed.

Lemma embed_text_reaches_client (self : EmbeddingService) (text : str) :
  strip text ≠ [] → (embed_text self text).1 !! 0 = Some (AembedQuery text).
Proof.
  intros Hs. unfold embed_text. rewrite decide_False by done.
  unfold aembed_query. by destruct (openai_embeddings self text).
Qed.

Lemma join_labelled (sep : str) (ps : list str) :
  Forall labelled ps → ps ≠ [] → strip (join sep ps) ≠ [].
Proof.
  intros Hps Hne. destruct ps as [|p ps]; [done|].
  apply Forall_cons in Hps as [Hp _].
  destruct (join_cons sep p ps) as [rest ->].
  destruct p as [|c p]; [done|]. by apply strip_cons.
Qed.

Lemma strip_join_cons (sep : str) (c : N) (p : str) (ps : list str) :
  isspace c = false → strip (join sep ((c :: p) :: ps)) ≠ [].
Proof.
  intros Hc. destruct ps as [|p' ps]; simpl; by apply strip_cons.
Qed.

Lemma part_labelled (label : string) (field : option str) :
  labelled (lit label) → Forall labelled (part label field).
Proof.
  intros Hl. unfold part. destruct (truthy_str field); [|done].
  apply Forall_singleton. by destruct (lit label).
Qed.

Lemma part_nil (label : string) (field : option str) :
  truthy_str field = false → part label field = [].
Proof. unfold part. by intros ->. Qed.

Lemma length_part (label : string) (field : option str) :
  length (part label field) = if truthy_str field then 1 else 0.
Proof. unfold part. by destruct (truthy_str field). Qed.

(** Property X22: the text of an owner is empty exactly when none of its
    seven attributes is set; [embed_text] then answers with zeros and a
    warning, without calling the client. In every other case the text goes
    to the client. *)
Theorem owner_text_blank (self : SolutionOwner.t) (embedding_service : EmbeddingService) :
  let text := SolutionOwner.to_text_for_embedding self in
  if owner_blank self then
    text = []
    ∧ embed_text embedding_service text
      = ([empty_text_warning],
         Ok (replicate (Z.to_nat (dimensions embedding_service)) 0%float))
  else (embed_text embedding_service text).1 !! 0 = Some (AembedQuery text).
Proof.
  cbv zeta. unfold owner_blank, SolutionOwner.to_text_for_embedding.
  destruct (truthy_str (SolutionOwner.name self)) eqn:H1;
  [|destruct (truthy_str (SolutionOwner.description self)) eqn:H2;
  [|destruct (truthy_str (SolutionOwner.industry self)) eqn:H3;
  [|destruct (truthy_str (SolutionOwner.size self)) eqn:H4;
  [|destruct (truthy_str (SolutionOwner.location self)) eqn:H5;
  [|destruct (truthy_str (SolutionOwner.search_keywords self)) eqn:H6;
  [|destruct (truthy_str (SolutionOwner.summary self)) eqn:H7]]]]]];
    cbn [orb negb].
  1-7: apply embed_text_reaches_client, join_labelled;
    [repeat (apply Forall_app_2; [by apply part_labelled|]); by apply part_labelled|].
  1-7: intros Hnil%(f_equal length);
    rewrite !length_app, !length_part in Hnil;
    rewrite ?H1, ?H2, ?H3, ?H4, ?H5, ?H6, ?H7 in Hnil; simpl in Hnil; lia.
  by rewrite !part_nil by done.
Qed.

(** Property X23: the texts of a chat message and of an enhanced context
    are never blank: [embed_text] sends them to the client, whatever the
    attributes hold. *)
Theorem chat_text_reaches_client (repr : json → str)
    (message : UserChatHistory.t) (context : UserEnhancedContext.t)
    (embedding_service : EmbeddingService) :
  (embed_text embedding_service
     (UserChatHistory.to_text_for_embedding repr message)).1 !! 0
  = Some (AembedQuery (UserChatHistory.to_text_for_embedding repr message))
  ∧ (embed_text embedding_service
       (UserEnhancedContext.to_text_for_embedding repr context)).1 !! 0
    = Some (AembedQuery (UserEnhancedContext.to_text_for_embedding repr context)).
Proof.
  split; apply embed_text_reaches_client.
  - by apply (strip_join_cons _ 82%N).
  - by apply (strip_join_cons _ 84%N).
Qed.

Lemma str_items_cases (i : nat) (items : list json) :
  if forallb (λ x, match x with JStr _ => true | _ => false end) items
  then ∃ ss, str_items i items = Returned ss
  else ∃ msg, str_items i items = Raised (TypeError msg).
Proof.
  revert i. induction items as [|v items IH]; intros i; [by eexists|].
  destruct v; simpl; try by eexists.
  specialize (IH (S i)). destruct (forallb _ items).
  - destruct IH as [ss ->]. by eexists.
  - destruct IH as [msg ->]. by eexists.
Qed.

Lemma json_part_cases (repr : json → str) (label : string) (field : json) :
  if joinable field then ∃ ps, json_part repr label field = Returned ps
  else ∃ msg, json_part repr label field = Raised (TypeError msg).
Proof.
  unfold json_part. destruct field as [|b|n|x|s|items|items']; simpl.
  - by eexists.
  - destruct b; by eexists.
  - destruct (negb _); by eexists.
  - destruct (negb _); by eexists.
  - destruct (bool_decide _); by eexists.
  - pose proof (str_items_cases 0 items) as H.
    destruct (forallb _ items) eqn:Hall.
    + destruct H as [ss ->]. destruct (bool_decide _); by eexists.
    + destruct H as [msg ->]. rewrite bool_decide_eq_true_2; [by eexists|].
      by intros ->.
  - destruct (bool_decide _); by eexists.
Qed.

(** Property X24: [to_text_for_embedding] of a product raises [TypeError]
    when [features], [tech_stack] or [use_cases] is a list with an item that
    is no string, and returns a text in every other case. *)
Theorem product_text_type_error (repr : json → str) (self : Product.t) :
  if joinable (Product.features self) && joinable (Product.tech_stack self)
     && joinable (Product.use_cases self)
  then ∃ text, Product.to_text_for_embedding repr self = Returned text
  else ∃ msg, Product.to_text_for_embedding repr self = Raised (TypeError msg).
Proof.
  unfold Product.to_text_for_embedding.
  pose proof (json_part_cases repr "Features: " (Product.features self)) as H1.
  pose proof (json_part_cases repr "Technology: " (Product.tech_stack self)) as H2.
  pose proof (json_part_cases repr "Use Cases: " (Product.use_cases self)) as H3.
  destruct (joinable (Product.features self)); destruct H1 as [? ->];
    [|by eexists].
  destruct (joinable (Product.tech_stack self)); destruct H2 as [? ->];
    [|by eexists].
  destruct (joinable (Product.use_cases self)); destruct H3 as [? ->];
    by eexists.
Qed.

Lemma context_parts_app (repr : json → str) (l1 l2 : list (str * json)) :
  UserEnhancedContext.context_parts repr (l1 ++ l2)
  = UserEnhancedContext.context_parts repr l1
    ++ UserEnhancedContext.context_parts repr l2.
Proof. apply flat_map_app. Qed.

(** Property X25: an entry of [context_data] under another key than
    preferences, interests, goals and requirements does not change the text
    of the context. *)
Theorem context_text_ignores_other_keys (repr : json → str)
    (self : UserEnhancedContext.t) (before after : list (str * json))
    (key : str) (value : json) :
  key ∉ UserEnhancedContext.context_keys →
  UserEnhancedContext.to_text_for_embedding repr
    (with_context_data self (JDict (before ++ (key, value) :: after)))
  = UserEnhancedContext.to_text_for_embedding repr
      (with_context_data self (JDict (before ++ after))).
Proof.
  intros Hkey. unfold UserEnhancedContext.to_text_for_embedding, with_context_data.
  cbn [UserEnhancedContext.context_type UserEnhancedContext.context_name
       UserEnhancedContext.summary UserEnhancedContext.context_data truthy].
  rewrite bool_decide_eq_true_2 by (by destruct before).
  rewrite !context_parts_app.
  assert (UserEnhancedContext.context_parts repr ((key, value) :: after)
          = UserEnhancedContext.context_parts repr after) as ->.
  { unfold UserEnhancedContext.context_parts. cbn [flat_map fst].
    by rewrite bool_decide_eq_false_2. }
  case_bool_decide as Hne; [done|].
  by apply app_eq_nil in Hne as [-> ->].
Qed.

Lemma context_text_ignores_other_keys_witness :
  UserEnhancedContext.to_text_for_embedding sample_repr
    (with_context_data sample_context
       (JDict ([(lit "goals", JStr (lit "grow"))]
               ++ (lit "budget", JInt 5) :: [(lit "interests", JStr (lit "ai"))])))
  = UserEnhancedContext.to_text_for_embedding sample_repr
      (with_context_data sample_context
         (JDict ([(lit "goals", JStr (lit "grow"))]
                 ++ [(lit "interests", JStr (lit "ai"))]))).
Proof.
  apply (context_text_ignores_other_keys sample_repr sample_context
           [(lit "goals", JStr (lit "grow"))] [(lit "interests", JStr (lit "ai"))]
           (lit "budget") (JInt 5)).
  apply (bool_decide_unpack _). by vm_compute.
Defined.

(** Property X26: [n] increments, [n >= 1], leave the count at the old
    count (zero when it was [None]) plus [n], and no other attribute
    changed. *)
Theorem increment_message_count_adds (self : UserEnhancedContext.t) (n : nat) :
  Nat.iter (S n) UserEnhancedContext.increment_message_count self
  = with_message_count self
      (Some (default 0 (UserEnhancedContext.message_count self) + Z.of_nat (S n))%Z).
Proof.
  induction n as [|n IH].
  - simpl. unfold UserEnhancedContext.increment_message_count, with_message_count.
    do 2 f_equal.
    destruct (UserEnhancedContext.message_count self) as [m|]; simpl; [|done].
    destruct (Z.eqb_spec m 0); lia.
  - rewrite Nat.iter_succ, IH.
    unfold with_message_count, UserEnhancedContext.increment_message_count.
    cbn [UserEnhancedContext.context_type UserEnhancedContext.context_name
         UserEnhancedContext.summary UserEnhancedContext.context_data
         UserEnhancedContext.message_count].
    do 2 f_equal.
    destruct (Z.eqb_spec (default 0 (UserEnhancedContext.message_count self)
                          + Z.of_nat (S n))%Z 0); lia.
Qed.

(** ** The dictionaries of the models *)

(** Property X27: a product whose price is zero gives the dictionaries of the
    product without a price: [to_dict] and [to_dict_with_owner] report the
    price [None] in both cases. *)
Theorem to_dict_zero_price (float_of_decimal : Decimal.t → float)
    (self : Product.t) (zero : Decimal.t) :
  Decimal.coefficient zero = 0%N →
  Product.to_dict float_of_decimal (with_price self (Some zero))
  = Product.to_dict float_of_decimal (with_price self None)
  ∧ Product.to_dict_with_owner float_of_decimal (with_price self (Some zero))
    = Product.to_dict_with_owner float_of_decimal (with_price self None)
  ∧ Product.to_dict float_of_decimal (with_price self (Some zero)) !! 7
    = Some (lit "price", JNull).
Proof.
  intros Hzero.
  assert (Product.to_dict float_of_decimal (with_price self (Some zero))
          = Product.to_dict float_of_decimal (with_price self None)) as Hdict.
  { unfold Product.to_dict, with_price, Product.json_of_decimal, Decimal.to_bool.
    cbn [Product.price]. by rewrite Hzero. }
  split_and!; [done| |].
  - unfold Product.to_dict_with_owner. by rewrite Hdict.
  - by rewrite Hdict.
Qed.

Lemma to_dict_zero_price_witness :
  Product.to_dict sample_float_of_decimal (with_price sample_product (Some zero_price))
  = Product.to_dict sample_float_of_decimal (with_price sample_product None)
  ∧ Product.to_dict_with_owner sample_float_of_decimal
      (with_price sample_product (Some zero_price))
    = Product.to_dict_with_owner sample_float_of_decimal
        (with_price sample_product None)
  ∧ Product.to_dict sample_float_of_decimal
      (with_price sample_product (Some zero_price)) !! 7
    = Some (lit "price", JNull).
Proof.
  apply (to_dict_zero_price sample_float_of_decimal sample_product zero_price).
  reflexivity.
Defined.

(** ** Vectors of different lengths *)

(** Property X28: when a vector has another length than the first one,
    [combine_embeddings] raises the [ValueError] of [np.array], with or
    without weights. *)
Theorem combine_embeddings_ragged (first : list float) (rest : list (list float))
    (weights : option (list float)) :
  Exists (λ v, length v ≠ length first) rest →
  combine_embeddings (first :: rest) weights
  = Raise (ValueError (np.inhomogeneous (S (length rest)))).
Proof.
  intros Hex. unfold combine_embeddings, np.array2.
  destruct (forallb _ rest) eqn:Hall; [|done].
  rewrite forallb_forall in Hall. apply Exists_exists in Hex as (v & Hv & Hlen).
  apply list_elem_of_In, Hall, Nat.eqb_eq in Hv. done.
Qed.

Lemma combine_embeddings_ragged_witness :
  combine_embeddings ([1; 2]%float :: [[3; 4]; [5]]%float) None
  = Raise (ValueError (np.inhomogeneous (S (length [[3; 4]; [5]]%float)))).
Proof.
  apply (combine_embeddings_ragged [1; 2]%float [[3; 4]; [5]]%float None).
  apply Exists_cons_tl, Exists_cons_hd. simpl. lia.
Defined.
